(** * Book Review API: a shallow embedding of the route handlers and models

    The development follows the source files:
    - [models/Books.js]   : [Book], [BookData], [bookSchema] (validators,
                            unique index on [isbn], [updateAverageRating]);
    - the review model    : [Review], [ReviewData], [reviewSchema] (validators,
                            unique index on book and user, post hooks);
    - the books router    : [post_books], [get_books], [get_book],
                            [post_book_reviews];
    - [routes/reviews.js] : [put_review], [delete_review];
    - [routes/search.js]  : [get_search].

    Conventions.
    - A JavaScript [Number] is an exact rational ([Q]): sums, quotients and
      [Math.round] are those of the rationals, not of doubles.  The one
      rounding kept is where a Number is read from text: [parseInt] yields
      the double nearest to the integer written ([to_double]).
    - A string is a sequence of Latin-1 code units: its length is the same
      to the validators of the routes and to those of the schemas.
    - An [ObjectId] and a [Date] are natural numbers.  Those the store hands
      out come from a counter that stays above every identifier in use, so
      a generated identifier is never one a client chose before.
    - [populate] only changes how a reference is displayed in the response,
      so a reference stays an [ObjectId] here.
    - The authentication middleware has run: a handler of a protected route
      takes the acting user's identifier.
    - A filter is sent to the store as the route built it (Mongoose's
      [strictQuery] is off), and a document holds the paths of its schema
      only (its [strict] is on).
    - A route is an [async] function whose body is wrapped in [try]/[catch];
      it is a function from the store to a response and a store. *)

From Stdlib Require Import List ZArith QArith Qround String Ascii Bool Lia Arith.
From Stdlib Require Import Permutation Sorted.
Import ListNotations.

Open Scope string_scope.
Open Scope Z_scope.
Open Scope list_scope.

(** ** JavaScript primitives used by the handlers *)

Definition Number := Q.
Definition ObjectId := nat.
Definition Date := nat.

(** [Math.round(x)]: the nearest integer, a tie going up. *)
Definition Math_round (x : Number) : Z := Qfloor (x + (1 # 2))%Q.

(** [Math.ceil(x)]. *)
Definition Math_ceil (x : Number) : Z := Qceiling x.

(** The double nearest to an integer: 53 significant bits, a tie going to
    the even neighbour.  An integer of at most 53 bits is its own double. *)
Definition to_double (z : Z) : Z :=
  let a := Z.abs z in
  let e := Z.log2 a - 52 in
  if e <=? 0 then z
  else
    let q := a / 2 ^ e in
    let r := a mod 2 ^ e in
    let half := 2 ^ (e - 1) in
    let q' := if (half <? r) || ((half =? r) && Z.odd q) then q + 1 else q in
    Z.sgn z * (q' * 2 ^ e).

(** [parseInt(v) || d], for a query value that is absent or unparsable ([None])
    or an integer. *)
Definition parseInt_or (v : option Z) (d : Z) : Z :=
  match v with
  | Some z => if z =? 0 then d else z
  | None => d
  end.

(** Characters matched by [\s] among the Latin-1 code units. *)
Definition is_space (c : ascii) : bool :=
  let n := nat_of_ascii c in
  ((9 <=? n) && (n <=? 13) || (n =? 32) || (n =? 160))%nat.

Definition is_digit (c : ascii) : bool :=
  let n := nat_of_ascii c in ((48 <=? n) && (n <=? 57))%nat.

Fixpoint ltrim (l : list ascii) : list ascii :=
  match l with
  | c :: l' => if is_space c then ltrim l' else l
  | [] => []
  end.

Definition rtrim (l : list ascii) : list ascii := rev (ltrim (rev l)).

(** A list that is empty or starts with something else than a space. *)
Definition starts_clean (l : list ascii) : Prop :=
  match l with [] => True | c :: _ => is_space c = false end.

(** [String.prototype.trim], also the [trim()] sanitizer and the schema
    option [trim: true]. *)
Definition trim (s : string) : string :=
  string_of_list_ascii (rtrim (ltrim (list_ascii_of_string s))).

Definition str_length (s : string) : Z := Z.of_nat (String.length s).

Definition notEmpty (s : string) : bool := negb (str_length s =? 0).

(** The ISBN pattern [/^(?=(?:\D*\d){10}(?:(?:\D*\d){3})?$)[\d-]+$/]: only
    digits and hyphens, ten or thirteen digits in all, and (from the
    look-ahead, which must reach the end right after a digit) a digit last. *)
Definition isbn_char (c : ascii) : bool := is_digit c || Ascii.eqb c "-"%char.

Definition isbn_pattern (s : string) : bool :=
  let l := list_ascii_of_string s in
  let digits := Z.of_nat (List.length (filter is_digit l)) in
  forallb isbn_char l
  && ((digits =? 10) || (digits =? 13))
  && match rev l with c :: _ => is_digit c | [] => false end.

(** ASCII case folding and literal, case-insensitive containment: what a
    [$regex] with option [i] computes for a pattern free of metacharacters. *)
Definition to_lower (c : ascii) : ascii :=
  let n := nat_of_ascii c in
  if ((65 <=? n) && (n <=? 90))%nat then ascii_of_nat (n + 32) else c.

Fixpoint prefix_ci (p s : list ascii) : bool :=
  match p, s with
  | [], _ => true
  | a :: p', b :: s' => Ascii.eqb (to_lower a) (to_lower b) && prefix_ci p' s'
  | _ :: _, [] => false
  end.

Fixpoint contains_ci_list (p s : list ascii) : bool :=
  prefix_ci p s ||
  match s with
  | [] => false
  | _ :: s' => contains_ci_list p s'
  end.

Definition icontains (p s : string) : bool :=
  contains_ci_list (list_ascii_of_string p) (list_ascii_of_string s).

(** The characters with a meaning of their own in a pattern. *)
Definition is_meta (c : ascii) : bool :=
  existsb (Ascii.eqb c) (list_ascii_of_string "\^$.|?*+()[]{}").

(** A regular-expression engine, as the store has one: it compiles a pattern
    to a test on strings (under option [i]) or refuses it. *)
Definition Regex := string -> option (string -> bool).

(** The engine on literal patterns, the only ones it takes: a pattern free of
    metacharacters matches where it occurs, whatever the case of the
    letters. *)
Definition contains_ci : Regex :=
  fun p =>
    if existsb is_meta (list_ascii_of_string p) then None
    else Some (icontains p).

(** ** Documents *)

Module Book.
(** A stored book ([bookSchema], with [timestamps: true]). *)
Record doc := mk {
  _id : ObjectId;
  title : string;
  author : string;
  genre : string;
  description : string;
  publishedYear : Z;
  isbn : option string;
  averageRating : option Number;   (* [None] is [null] *)
  totalReviews : option Number;    (* [None] is [null] *)
  addedBy : ObjectId;
  createdAt : Date
}.
End Book.

Module Review.
(** A stored review ([reviewSchema], with [timestamps: true]). *)
Record doc := mk {
  _id : ObjectId;
  rating : Z;
  comment : string;
  book : ObjectId;
  user : ObjectId;
  createdAt : Date
}.
End Review.

(** The store: the two collections, and the counter from which identifiers and
    creation times are drawn. *)
Record DB := mkDB {
  books : list Book.doc;
  reviews : list Review.doc;
  clock : nat
}.

Definition empty_db : DB := mkDB [] [] 0.

(** ** Request values *)

(** A value that a validator reads with [isInt] and a handler with [parseInt]:
    absent; present and an integer literal (of a value below [2 ^ 1024], so
    that it reads as a finite Number); or present and something else, of
    which [parseInt] may still read a leading integer. *)
Inductive IntField :=
| Undefined
| Int (z : Z)
| NotInt (parsed : option Z).

(** [isInt({min, max})]. *)
Definition isInt (lo : Z) (hi : option Z) (v : IntField) : bool :=
  match v with
  | Int z => (lo <=? z) && match hi with Some h => z <=? h | None => true end
  | _ => false
  end.

(** [.optional()]: a field that is [undefined] is not validated. *)
Definition optional_int (check : IntField -> bool) (v : IntField) : bool :=
  match v with Undefined => true | _ => check v end.

Definition parseInt (v : IntField) : option Z :=
  match v with
  | Undefined => None
  | Int z => Some (to_double z)
  | NotInt p => p
  end.

(** A body value on a path that no validator of the route reads: absent,
    [null] (or the empty text, which a number is cast from as [null]), a
    value the path's type cannot be cast from, or a value that is, or is cast
    to, a finite one of that type. *)
Inductive Given (A : Type) :=
| Absent
| Null
| Uncastable
| Value (a : A).
Arguments Absent {A}.
Arguments Null {A}.
Arguments Uncastable {A}.
Arguments Value {A}.

(** ** Queries on a collection *)

(** What a query needs from a model: its collection and how a document answers
    for a path.  A path outside the schema is never stored, so it reads as
    absent. *)
Record Model (D : Type) := mkModel {
  collection : DB -> list D;
  path_string : string -> D -> option string;
  path_id : string -> D -> option ObjectId;
  created : D -> Date
}.
Arguments collection {D}.
Arguments path_string {D}.
Arguments path_id {D}.
Arguments created {D}.

Definition BookModel : Model Book.doc :=
  mkModel Book.doc books
    (fun p b =>
       if String.eqb p "title" then Some (Book.title b)
       else if String.eqb p "author" then Some (Book.author b)
       else if String.eqb p "genre" then Some (Book.genre b)
       else if String.eqb p "description" then Some (Book.description b)
       else if String.eqb p "isbn" then Book.isbn b
       else None)
    (fun p b =>
       if String.eqb p "_id" then Some (Book._id b)
       else if String.eqb p "addedBy" then Some (Book.addedBy b)
       else None)
    Book.createdAt.

Definition ReviewModel : Model Review.doc :=
  mkModel Review.doc reviews
    (fun p r => if String.eqb p "comment" then Some (Review.comment r) else None)
    (fun p r =>
       if String.eqb p "_id" then Some (Review._id r)
       else if String.eqb p "book" then Some (Review.book r)
       else if String.eqb p "user" then Some (Review.user r)
       else None)
    Review.createdAt.

(** The filter objects the handlers build. *)
Inductive Filter :=
| F_all                                     (* {} *)
| F_regex (path : string) (pattern : string) (* { path: { $regex, $options: 'i' } } *)
| F_ref (path : string) (id : ObjectId)     (* { path: id } *)
| F_and (f g : Filter)                      (* two keys of one filter object *)
| F_or (f g : Filter).                      (* { $or: [f, g] } *)

Section Patterns.
(** The store's regular-expression engine. *)
Variable regex_i : Regex.

(** Whether [s] has a match of [pattern]; a pattern the engine refuses
    matches nothing. *)
Definition regex_test (pattern s : string) : bool :=
  match regex_i pattern with
  | Some test => test s
  | None => false
  end.

(** Whether the store takes a filter: it refuses one with a [$regex] that
    does not compile. *)
Fixpoint well_formed (f : Filter) : bool :=
  match f with
  | F_regex _ pat => match regex_i pat with Some _ => true | None => false end
  | F_and f g => well_formed f && well_formed g
  | F_or f g => well_formed f && well_formed g
  | _ => true
  end.
End Patterns.

Section Queries.
Variable regex_i : Regex.

Context {D : Type} (M : Model D).

Fixpoint matches (f : Filter) (d : D) : bool :=
  match f with
  | F_all => true
  | F_regex p pat =>
      match path_string M p d with
      | Some s => regex_test regex_i pat s
      | None => false
      end
  | F_ref p id =>
      match path_id M p d with
      | Some i => Nat.eqb i id
      | None => false
      end
  | F_and f g => matches f d && matches g d
  | F_or f g => matches f d || matches g d
  end.

(** [Model.find(filter)], in storage order. *)
Definition find (f : Filter) (db : DB) : list D :=
  filter (matches f) (collection M db).

(** [Model.countDocuments(filter)]. *)
Definition countDocuments (f : Filter) (db : DB) : Z :=
  Z.of_nat (List.length (find f db)).

(** [Model.findOne(filter)]. *)
Definition findOne (f : Filter) (db : DB) : option D :=
  List.find (matches f) (collection M db).

(** [Model.findById(id)]. *)
Definition findById (id : ObjectId) (db : DB) : option D :=
  findOne (F_ref "_id" id) db.

Fixpoint insert_desc (x : D) (l : list D) : list D :=
  match l with
  | [] => [x]
  | y :: l' =>
      if (created M y <? created M x)%nat then x :: l
      else y :: insert_desc x l'
  end.

(** [.sort({ createdAt: -1 })]. *)
Definition sort_createdAt_desc (l : list D) : list D :=
  fold_right insert_desc [] l.

(** [.skip(n)] and [.limit(n)] for the non-negative arguments the routes
    pass: all but the first [n], and the first [n]. *)
Definition skip (n : Z) (l : list D) : list D :=
  if Z.of_nat (List.length l) <=? n then [] else skipn (Z.to_nat n) l.
Definition limit (n : Z) (l : list D) : list D :=
  if Z.of_nat (List.length l) <=? n then l else firstn (Z.to_nat n) l.

(** [Model.find(f).sort({createdAt: -1}).skip(s).limit(n)]. *)
Definition find_page (f : Filter) (s n : Z) (db : DB) : list D :=
  limit n (skip s (sort_createdAt_desc (find f db))).
End Queries.

(** ** Responses, errors and the handler monad *)

Record Pagination := mkPagination {
  currentPage : Z;
  totalPages : Z;
  totalItems : Z;      (* [totalBooks], [totalReviews] or [totalResults] *)
  hasNext : bool;
  hasPrev : bool
}.

(** The JSON bodies the routes send. *)
Inductive Json :=
| J_errors (errors : list string)                          (* { errors } *)
| J_error (error : string)                                 (* { error } *)
| J_message (message : string)                             (* { message } *)
| J_book (message : string) (book : Book.doc)              (* { message, book } *)
| J_review (message : string) (review : Review.doc)        (* { message, review } *)
| J_books (books : list Book.doc) (pagination : Pagination)
| J_detail (book : Book.doc) (reviews : list Review.doc) (pagination : Pagination)
| J_search (query : string) (books : list Review.doc) (pagination : Pagination).

Record Response := mkResponse { status : Z; json : Json }.

(** What the store and the models throw. *)
Inductive Err :=
| ValidationError (paths : list string)
| DuplicateKey (index : string)
| CastError (path : string)
| MongoError (reason : string).

(** A step of an [async] route body: it goes on with a value, has already sent
    its response ([return res.status(..).json(..)]), or has thrown.  The store
    keeps whatever was written before. *)
Inductive outcome (A : Type) :=
| Next (a : A) (db : DB)
| Sent (r : Response) (db : DB)
| Thrown (e : Err) (db : DB).
Arguments Next {A}.
Arguments Sent {A}.
Arguments Thrown {A}.

Definition Handler (A : Type) := DB -> outcome A.

Definition ret {A} (a : A) : Handler A := fun db => Next a db.

Definition bind {A B} (m : Handler A) (k : A -> Handler B) : Handler B :=
  fun db =>
    match m db with
    | Next a db' => k a db'
    | Sent r db' => Sent r db'
    | Thrown e db' => Thrown e db'
    end.

Notation "x <- m ;; k" := (bind m (fun x => k))
  (at level 61, m at next level, right associativity).
Notation "m ;;; k" := (bind m (fun _ => k))
  (at level 61, right associativity).

Definition send {A} (code : Z) (j : Json) : Handler A :=
  fun db => Sent (mkResponse code j) db.

Definition throw {A} (e : Err) : Handler A := fun db => Thrown e db.

(** A read of the store. *)
Definition query {A} (f : DB -> A) : Handler A := fun db => Next (f db) db.

(** A read by a filter the route built from the request: the store throws on
    a filter it does not take. *)
Definition exec {A} (regex_i : Regex) (filter : Filter) (f : DB -> A)
  : Handler A :=
  if well_formed regex_i filter then query f
  else throw (MongoError "regex").

(** [try { body } catch (error) { res.status(500).json({ error: msg }) }]. *)
Definition try_catch (msg : string) (body : Handler Response) (db : DB)
  : Response * DB :=
  match body db with
  | Next r db' => (r, db')
  | Sent r db' => (r, db')
  | Thrown _ db' => (mkResponse 500 (J_error msg), db')
  end.

(** A route parameter [:id] given to a model: text that is no ObjectId makes
    the cast throw. *)
Definition cast_id (id : option ObjectId) : Handler ObjectId :=
  match id with
  | Some i => ret i
  | None => throw (CastError "_id")
  end.

(** The text a validator or a setter reads from a field: none if the field is
    absent. *)
Definition text_of (o : option string) : string :=
  match o with Some s => s | None => "" end.

Definition is_nil {A} (l : list A) : bool :=
  match l with [] => true | _ => false end.

(** ** models/Books.js *)

Module BookData.
(** The object [new Book(..)] is given; also the JSON body of [POST /books],
    whose further keys the schema drops.  On a path a validator of the route
    reads, [null] reads as the empty text: for [isbn], which is validated
    unless it is absent, it is [Some ""]; for the others it is no different
    from an absent value. *)
Record t := mk {
  title : option string;
  author : option string;
  genre : option string;
  description : option string;
  publishedYear : IntField;
  isbn : option string;
  averageRating : Given Number;
  totalReviews : Given Number;
  addedBy : option ObjectId;
  _id : Given ObjectId;
  createdAt : Given Date
}.
End BookData.

Module bookSchema.
Section Schema.
(** [new Date().getFullYear()]. *)
Variable currentYear : Z.

(** A required, trimmed string with a [maxlength]. *)
Definition check_string (path : string) (maxlength : Z) (v : option string)
  : list string :=
  match v with
  | Some s =>
      if notEmpty (trim s) && (str_length (trim s) <=? maxlength)
      then [] else [path]
  | None => [path]
  end.

(** [required], [min: 1000] and [max] the current year.  A number that is no
    integer would pass them; none reaches the schema, as the route's [isInt]
    refuses it first, and it is not told apart here from a value that is no
    number. *)
Definition check_publishedYear (v : IntField) : list string :=
  match v with
  | Int z => if (1000 <=? z) && (z <=? currentYear) then [] else ["publishedYear"]
  | _ => ["publishedYear"]
  end.

Definition check_isbn (v : option string) : list string :=
  match v with
  | Some s =>
      if negb (notEmpty (trim s)) || isbn_pattern (trim s) then [] else ["isbn"]
  | None => []
  end.

(** [min: 0, max: 5]; a validator passes [null] by. *)
Definition check_averageRating (v : option Number) : list string :=
  match v with
  | Some x => if Qle_bool 0 x && Qle_bool x 5 then [] else ["averageRating"]
  | None => []
  end.

(** [min: 0]. *)
Definition check_totalReviews (v : option Number) : list string :=
  match v with
  | Some x => if Qle_bool 0 x then [] else ["totalReviews"]
  | None => []
  end.

(** The value of a path with a default: the default stands in for an absent
    value only, and [null] is kept. *)
Definition with_default {A} (v : Given A) (d : A) : option A :=
  match v with
  | Absent => Some d
  | Value x => Some x
  | Null | Uncastable => None
  end.

Definition default_averageRating (v : Given Number) : option Number :=
  with_default v 0%Q.

Definition default_totalReviews (v : Given Number) : option Number :=
  with_default v 0%Q.

(** A value that cannot be cast fails the path. *)
Definition check_cast {A} (path : string) (v : Given A) : list string :=
  match v with Uncastable => [path] | _ => [] end.

(** A document is saved under an identifier: [_id] may be chosen, not
    [null]. *)
Definition check_id (v : Given ObjectId) : list string :=
  match v with Null | Uncastable => ["_id"] | _ => [] end.

(** The paths of a new document that fail validation. *)
Definition validate (d : BookData.t) : list string :=
  (check_string "title" 200 (BookData.title d)
   ++ check_string "author" 100 (BookData.author d)
   ++ check_string "genre" 50 (BookData.genre d)
   ++ check_string "description" 2000 (BookData.description d)
   ++ check_publishedYear (BookData.publishedYear d)
   ++ check_isbn (BookData.isbn d)
   ++ check_cast "averageRating" (BookData.averageRating d)
   ++ check_averageRating (default_averageRating (BookData.averageRating d))
   ++ check_cast "totalReviews" (BookData.totalReviews d)
   ++ check_totalReviews (default_totalReviews (BookData.totalReviews d))
   ++ match BookData.addedBy d with Some _ => [] | None => ["addedBy"] end
   ++ check_id (BookData._id d)
   ++ check_cast "createdAt" (BookData.createdAt d))%list.

(** The document [new Book(d)] stands for once it passed validation:
    setters and defaults applied; [id] is the identifier generated for it and
    [now] the time of the save, which stand in where the data names
    neither. *)
Definition document (d : BookData.t) (id : ObjectId) (now : Date) : Book.doc :=
  Book.mk (match BookData._id d with Value i => i | _ => id end)
    (trim (text_of (BookData.title d)))
    (trim (text_of (BookData.author d)))
    (trim (text_of (BookData.genre d)))
    (trim (text_of (BookData.description d)))
    (match BookData.publishedYear d with Int z => z | _ => 0 end)
    (option_map trim (BookData.isbn d))
    (default_averageRating (BookData.averageRating d))
    (default_totalReviews (BookData.totalReviews d))
    (match BookData.addedBy d with Some u => u | None => O end)
    (match BookData.createdAt d with Value t => t | _ => now end).

(** The unique index on [_id]. *)
Definition id_taken (id : ObjectId) (db : DB) : bool :=
  existsb (fun b => Nat.eqb (Book._id b) id) (books db).

(** The unique, sparse index on [isbn]. *)
Definition isbn_taken (v : option string) (db : DB) : bool :=
  match v with
  | Some s =>
      existsb (fun b => match Book.isbn b with
                        | Some s' => String.eqb s s'
                        | None => false
                        end) (books db)
  | None => false
  end.

(** [book.save()] on a new document. *)
Definition save_new (d : BookData.t) : Handler Book.doc :=
  fun db =>
    match validate d with
    | [] =>
        let book := document d (clock db) (clock db) in
        if id_taken (Book._id book) db
        then Thrown (DuplicateKey "_id_") db
        else if isbn_taken (Book.isbn book) db
        then Thrown (DuplicateKey "isbn_1") db
        else Next book (mkDB (books db ++ [book]) (reviews db)
                          (S (Nat.max (clock db) (Book._id book))))
    | paths => Thrown (ValidationError paths) db
    end.
End Schema.

Definition set_ratings (avg total : option Number) (b : Book.doc) : Book.doc :=
  Book.mk (Book._id b) (Book.title b) (Book.author b) (Book.genre b)
    (Book.description b) (Book.publishedYear b) (Book.isbn b)
    avg total (Book.addedBy b) (Book.createdAt b).

(** [updateOne({ _id }, { $set: { averageRating, totalReviews } })]. *)
Fixpoint update_ratings (id : ObjectId) (avg total : option Number)
  (l : list Book.doc) : list Book.doc :=
  match l with
  | [] => []
  | b :: l' =>
      if Nat.eqb (Book._id b) id then set_ratings avg total b :: l'
      else b :: update_ratings id avg total l'
  end.

(** [this.save()] on a stored book whose two derived paths were assigned:
    the modified paths are validated, then written. *)
Definition save_ratings (this : Book.doc) : Handler unit :=
  fun db =>
    match (check_averageRating (Book.averageRating this)
           ++ check_totalReviews (Book.totalReviews this))%list with
    | [] =>
        Next tt (mkDB (update_ratings (Book._id this) (Book.averageRating this)
                         (Book.totalReviews this) (books db))
                   (reviews db) (clock db))
    | paths => Thrown (ValidationError paths) db
    end.

(** The [$match] and [$group] stages: the ratings of the reviews of a book. *)
Definition ratings_of (id : ObjectId) (db : DB) : list Z :=
  map Review.rating
    (filter (fun r => Nat.eqb (Review.book r) id) (reviews db)).

Definition sum (l : list Z) : Z := fold_right Z.add 0 l.

(** [$avg]. *)
Definition avg (l : list Z) : Number :=
  (inject_Z (sum l) / inject_Z (Z.of_nat (List.length l)))%Q.

(** [bookSchema.methods.updateAverageRating]. *)
Definition updateAverageRating (this : Book.doc) : Handler unit :=
  stats <- query (ratings_of (Book._id this)) ;;
  let this' :=
    if negb (is_nil stats)
    then set_ratings (Some (inject_Z (Math_round (avg stats * 10)) / 10)%Q)
           (Some (inject_Z (Z.of_nat (List.length stats)))) this
    else set_ratings (Some 0%Q) (Some 0%Q) this in
  save_ratings this'.
End bookSchema.

(** ** The review model *)

Module ReviewData.
(** The object [new Review(..)] is given. *)
Record t := mk {
  rating : IntField;
  comment : option string;
  book : ObjectId;
  user : ObjectId
}.
End ReviewData.

Module reviewSchema.
Section Schema.
Variable regex_i : Regex.

Definition check_rating (z : Z) : list string :=
  if (1 <=? z) && (z <=? 5) then [] else ["rating"].

Definition check_comment (s : string) : list string :=
  if (10 <=? str_length s) && (str_length s <=? 1000) then [] else ["comment"].

(** The paths of a new document that fail validation.  As for a book's
    year, a rating that is a number but no integer never reaches the schema:
    the routes' [isInt] refuses it first. *)
Definition validate (d : ReviewData.t) : list string :=
  (match ReviewData.rating d with
   | Int z => check_rating z
   | _ => ["rating"]
   end
   ++ match ReviewData.comment d with
      | Some s => check_comment (trim s)
      | None => ["comment"]
      end)%list.

Definition document (d : ReviewData.t) (id : ObjectId) (now : Date)
  : Review.doc :=
  Review.mk id
    (match ReviewData.rating d with Int z => z | _ => 0 end)
    (trim (text_of (ReviewData.comment d)))
    (ReviewData.book d) (ReviewData.user d) now.

(** The index [{ book: 1, user: 1 }, { unique: true }]. *)
Definition pair_taken (b u : ObjectId) (db : DB) : bool :=
  existsb (fun r => Nat.eqb (Review.book r) b && Nat.eqb (Review.user r) u)
    (reviews db).

(** The store's insert into the review collection, which the index guards.
    A review's identifier is always a generated one. *)
Definition insert (r : Review.doc) : Handler unit :=
  fun db =>
    if pair_taken (Review.book r) (Review.user r) db
    then Thrown (DuplicateKey "book_1_user_1") db
    else Next tt (mkDB (books db) (reviews db ++ [r]) (S (clock db))).

(** [reviewSchema.post('save', ..)]. *)
Definition post_save (this : Review.doc) : Handler unit :=
  book <- query (findById regex_i BookModel (Review.book this)) ;;
  match book with
  | Some b => bookSchema.updateAverageRating b
  | None => ret tt
  end.

(** [reviewSchema.post('remove', ..)]: document middleware, run by
    [doc.remove()] only. *)
Definition post_remove (this : Review.doc) : Handler unit :=
  book <- query (findById regex_i BookModel (Review.book this)) ;;
  match book with
  | Some b => bookSchema.updateAverageRating b
  | None => ret tt
  end.

(** [review.save()] on a new document. *)
Definition save_new (d : ReviewData.t) : Handler Review.doc :=
  match validate d with
  | [] =>
      now <- query clock ;;
      let review := document d now now in
      insert review ;;;
      post_save review ;;;
      ret review
  | paths => throw (ValidationError paths)
  end.

Definition set_fields (rating : option Z) (comment : option string)
  (r : Review.doc) : Review.doc :=
  Review.mk (Review._id r)
    (match rating with Some z => z | None => Review.rating r end)
    (match comment with Some s => s | None => Review.comment r end)
    (Review.book r) (Review.user r) (Review.createdAt r).

(** [updateOne({ _id }, { $set: modified })]. *)
Fixpoint update_fields (id : ObjectId) (rating : option Z)
  (comment : option string) (l : list Review.doc) : list Review.doc :=
  match l with
  | [] => []
  | r :: l' =>
      if Nat.eqb (Review._id r) id then set_fields rating comment r :: l'
      else r :: update_fields id rating comment l'
  end.

(** [review.save()] on a stored review of which [rating] and [comment]
    were assigned where given: the modified paths are validated and
    written, then the hook runs. *)
Definition save (this : Review.doc) (rating : option Z)
  (comment : option string) : Handler Review.doc :=
  let this' := set_fields rating comment this in
  match (match rating with Some z => check_rating z | None => [] end
         ++ match comment with Some s => check_comment s | None => [] end)%list
  with
  | [] =>
      (fun db => Next tt (mkDB (books db)
                            (update_fields (Review._id this) rating comment
                               (reviews db))
                            (clock db))) ;;;
      post_save this' ;;;
      ret this'
  | paths => throw (ValidationError paths)
  end.

Fixpoint remove_id (id : ObjectId) (l : list Review.doc) : list Review.doc :=
  match l with
  | [] => []
  | r :: l' => if Nat.eqb (Review._id r) id then l' else r :: remove_id id l'
  end.

(** [Review.findByIdAndDelete(id)]: a query; it runs query middleware, of
    which the schema declares none, and no document middleware. *)
Definition findByIdAndDelete (id : ObjectId) : Handler (option Review.doc) :=
  fun db =>
    Next (findById regex_i ReviewModel id db)
      (mkDB (books db) (remove_id id (reviews db)) (clock db)).
End Schema.
End reviewSchema.

(** ** Request bodies *)

Module ReviewBody.
(** The JSON body of [POST /books/:id/reviews] and of [PUT /reviews/:id]. *)
Record t := mk {
  rating : IntField;
  comment : option string
}.
End ReviewBody.

Definition when (failed : bool) (msg : string) : list string :=
  if failed then [msg] else [].

Definition isLength (lo hi : Z) (s : string) : bool :=
  (lo <=? str_length s) && (str_length s <=? hi).

(** [page], [limit] and the pagination block shared by the listing routes. *)
Definition page_of (page : IntField) : Z := parseInt_or (parseInt page) 1.
Definition limit_of (limit : IntField) : Z := parseInt_or (parseInt limit) 10.

Definition pagination (page lim total : Z) : Pagination :=
  let totalPages := Math_ceil (inject_Z total / inject_Z lim)%Q in
  mkPagination page totalPages total (page <? totalPages) (1 <? page).

Definition check_paging (page limit : IntField) : list string :=
  (when (negb (optional_int (isInt 1 None) page)) "Page must be a positive integer"
   ++ when (negb (optional_int (isInt 1 (Some 50)) limit))
        "Limit must be between 1 and 50")%list.

Section Routes.
Variable regex_i : Regex.
Variable currentYear : Z.

(** *** The books router *)

(** The validation chain of [POST /books]; the [trim()] sanitizers write
    the trimmed text back into the body. *)
Definition sanitize_book (body : BookData.t) : BookData.t :=
  BookData.mk
    (option_map trim (BookData.title body))
    (option_map trim (BookData.author body))
    (option_map trim (BookData.genre body))
    (option_map trim (BookData.description body))
    (BookData.publishedYear body) (BookData.isbn body)
    (BookData.averageRating body) (BookData.totalReviews body)
    (BookData.addedBy body) (BookData._id body) (BookData.createdAt body).

Definition check_book (body : BookData.t) : list string :=
  (when (negb (notEmpty (trim (text_of (BookData.title body))))) "Title is required"
   ++ when (negb (notEmpty (trim (text_of (BookData.author body))))) "Author is required"
   ++ when (negb (notEmpty (trim (text_of (BookData.genre body))))) "Genre is required"
   ++ when (negb (notEmpty (trim (text_of (BookData.description body)))))
        "Description is required"
   ++ when (negb (isInt 1000 (Some currentYear) (BookData.publishedYear body)))
        "Invalid published year"
   ++ when (match BookData.isbn body with
            | Some s => negb (isbn_pattern s)
            | None => false
            end) "Invalid ISBN format")%list.

(** [{ ...req.body, addedBy: req.user._id }]. *)
Definition bookData (body : BookData.t) (user : ObjectId) : BookData.t :=
  BookData.mk (BookData.title body) (BookData.author body) (BookData.genre body)
    (BookData.description body) (BookData.publishedYear body)
    (BookData.isbn body) (BookData.averageRating body)
    (BookData.totalReviews body) (Some user)
    (BookData._id body) (BookData.createdAt body).

(** [POST /books]. *)
Definition post_books (user : ObjectId) (body : BookData.t)
  : DB -> Response * DB :=
  try_catch "Server error while adding book"
    (let errors := check_book body in
     let body := sanitize_book body in
     if negb (is_nil errors) then send 400 (J_errors errors) else
     book <- bookSchema.save_new currentYear (bookData body user) ;;
     ret (mkResponse 201 (J_book "Book added successfully" book))).

(** The filter object of [GET /books]: a key for each query value that is
    not empty. *)
Definition books_filter (author genre : option string) : Filter :=
  F_and
    (match author with
     | Some a => if notEmpty a then F_regex "author" a else F_all
     | None => F_all
     end)
    (match genre with
     | Some g => if notEmpty g then F_regex "genre" g else F_all
     | None => F_all
     end).

(** [GET /books]. *)
Definition get_books (page limit : IntField) (author genre : option string)
  : DB -> Response * DB :=
  try_catch "Server error while fetching books"
    (let errors := check_paging page limit in
     let author := option_map trim author in
     let genre := option_map trim genre in
     if negb (is_nil errors) then send 400 (J_errors errors) else
     let page := page_of page in
     let limit := limit_of limit in
     let skip := (page - 1) * limit in
     let filter := books_filter author genre in
     books <- exec regex_i filter
                (find_page regex_i BookModel filter skip limit) ;;
     total <- exec regex_i filter (countDocuments regex_i BookModel filter) ;;
     ret (mkResponse 200 (J_books books (pagination page limit total)))).

(** [GET /books/:id].  The route has no validators: the store rejects a
    negative [skip], and the driver reads a negative [limit] as its absolute
    value. *)
Definition get_book (id : option ObjectId) (page limit : IntField)
  : DB -> Response * DB :=
  try_catch "Server error while fetching book details"
    (id <- cast_id id ;;
     book <- query (findById regex_i BookModel id) ;;
     match book with
     | None => send 404 (J_error "Book not found")
     | Some book =>
         let page := page_of page in
         let limit := limit_of limit in
         let skip := (page - 1) * limit in
         let filter := F_ref "book" (Book._id book) in
         if skip <? 0 then throw (MongoError "skip") else
         reviews <- query (find_page regex_i ReviewModel filter skip (Z.abs limit)) ;;
         totalReviews <- query (countDocuments regex_i ReviewModel filter) ;;
         ret (mkResponse 200
                (J_detail book reviews (pagination page limit totalReviews)))
     end).

Definition check_review (body : ReviewBody.t) : list string :=
  (when (negb (isInt 1 (Some 5) (ReviewBody.rating body)))
     "Rating must be between 1 and 5"
   ++ when (negb (isLength 10 1000 (trim (text_of (ReviewBody.comment body)))))
        "Comment must be between 10 and 1000 characters")%list.

Definition sanitize_review (body : ReviewBody.t) : ReviewBody.t :=
  ReviewBody.mk (ReviewBody.rating body) (option_map trim (ReviewBody.comment body)).

(** [POST /books/:id/reviews]. *)
Definition post_book_reviews (user : ObjectId) (id : option ObjectId)
  (body : ReviewBody.t) : DB -> Response * DB :=
  try_catch "Server error while submitting review"
    (let errors := check_review body in
     let body := sanitize_review body in
     if negb (is_nil errors) then send 400 (J_errors errors) else
     id <- cast_id id ;;
     book <- query (findById regex_i BookModel id) ;;
     match book with
     | None => send 404 (J_error "Book not found")
     | Some _ =>
         existingReview <-
           query (findOne regex_i ReviewModel
                    (F_and (F_ref "book" id) (F_ref "user" user))) ;;
         match existingReview with
         | Some _ => send 400 (J_error "You have already reviewed this book")
         | None =>
             review <- reviewSchema.save_new regex_i
                         (ReviewData.mk (ReviewBody.rating body)
                            (ReviewBody.comment body) id user) ;;
             ret (mkResponse 201 (J_review "Review submitted successfully" review))
         end
     end).

(** *** routes/reviews.js *)

Definition check_review_update (body : ReviewBody.t) : list string :=
  (when (negb (optional_int (isInt 1 (Some 5)) (ReviewBody.rating body)))
     "Rating must be between 1 and 5"
   ++ when (match ReviewBody.comment body with
            | Some s => negb (isLength 10 1000 (trim s))
            | None => false
            end) "Comment must be between 10 and 1000 characters")%list.

(** The value [review.rating = req.body.rating] stores, if the body has one. *)
Definition assigned_rating (body : ReviewBody.t) : option Z :=
  match ReviewBody.rating body with
  | Int z => Some z
  | _ => None
  end.

(** The value [review.comment = req.body.comment] stores, if the body has
    one; the schema's setter trims. *)
Definition assigned_comment (body : ReviewBody.t) : option string :=
  option_map trim (ReviewBody.comment body).

(** [PUT /reviews/:id]. *)
Definition put_review (user : ObjectId) (id : option ObjectId)
  (body : ReviewBody.t) : DB -> Response * DB :=
  try_catch "Server error while updating review"
    (let errors := check_review_update body in
     let body := sanitize_review body in
     if negb (is_nil errors) then send 400 (J_errors errors) else
     id <- cast_id id ;;
     review <- query (findById regex_i ReviewModel id) ;;
     match review with
     | None => send 404 (J_error "Review not found")
     | Some review =>
         if negb (Nat.eqb (Review.user review) user)
         then send 403 (J_error "You can only update your own reviews") else
         review <- reviewSchema.save regex_i review
                     (assigned_rating body) (assigned_comment body) ;;
         ret (mkResponse 200 (J_review "Review updated successfully" review))
     end).

(** [DELETE /reviews/:id]. *)
Definition delete_review (user : ObjectId) (id : option ObjectId)
  : DB -> Response * DB :=
  try_catch "Server error while deleting review"
    (id <- cast_id id ;;
     review <- query (findById regex_i ReviewModel id) ;;
     match review with
     | None => send 404 (J_error "Review not found")
     | Some review =>
         if negb (Nat.eqb (Review.user review) user)
         then send 403 (J_error "You can only delete your own reviews") else
         reviewSchema.findByIdAndDelete regex_i id ;;;
         ret (mkResponse 200 (J_message "Review deleted successfully"))
     end).

(** *** routes/search.js *)

(** [const Book = require('../models/Review')]: the model the route queries
    under the name [Book]. *)
Definition search_Book : Model Review.doc := ReviewModel.

Definition searchFilter (searchQuery : string) : Filter :=
  F_or (F_regex "title" searchQuery) (F_regex "author" searchQuery).

(** The queries of the route and its pagination block, against the model
    the name [Book] is bound to. *)
Definition search_page {D : Type} (Book : Model D) (searchQuery : string)
  (page limit : IntField) : Handler (list D * Pagination) :=
  let page := page_of page in
  let limit := limit_of limit in
  let skip := (page - 1) * limit in
  let searchFilter := searchFilter searchQuery in
  books <- exec regex_i searchFilter
             (find_page regex_i Book searchFilter skip limit) ;;
  total <- exec regex_i searchFilter (countDocuments regex_i Book searchFilter) ;;
  ret (books, pagination page limit total).

(** [GET /search]. *)
Definition get_search (q : option string) (page limit : IntField)
  : DB -> Response * DB :=
  try_catch "Server error while searching books"
    (let errors :=
       (when (negb (notEmpty (trim (text_of q)))) "Search query is required"
        ++ check_paging page limit)%list in
     let q := option_map trim q in
     if negb (is_nil errors) then send 400 (J_errors errors) else
     let searchQuery := text_of q in
     found <- search_page search_Book searchQuery page limit ;;
     ret (mkResponse 200 (J_search searchQuery (fst found) (snd found)))).
End Routes.

(** ** The server as a state machine *)

Inductive Request :=
| AddBook (user : ObjectId) (body : BookData.t)
| ListBooks (page limit : IntField) (author genre : option string)
| GetBookDetail (id : option ObjectId) (page limit : IntField)
| SubmitReview (user : ObjectId) (id : option ObjectId) (body : ReviewBody.t)
| UpdateReview (user : ObjectId) (id : option ObjectId) (body : ReviewBody.t)
| DeleteReview (user : ObjectId) (id : option ObjectId)
| Search (q : option string) (page limit : IntField).

Section Server.
Variable regex_i : Regex.
Variable currentYear : Z.

Definition serve (rq : Request) : DB -> Response * DB :=
  match rq with
  | AddBook user body => post_books currentYear user body
  | ListBooks page limit author genre => get_books regex_i page limit author genre
  | GetBookDetail id page limit => get_book regex_i id page limit
  | SubmitReview user id body => post_book_reviews regex_i user id body
  | UpdateReview user id body => put_review regex_i user id body
  | DeleteReview user id => delete_review regex_i user id
  | Search q page limit => get_search regex_i q page limit
  end.

(** The stores the server can be in: the empty one, and what a request
    leaves. *)
Inductive reachable : DB -> Prop :=
| reach_empty : reachable empty_db
| reach_serve db rq : reachable db -> reachable (snd (serve rq db)).
End Server.

(** The store an outcome leaves. *)
Definition outcome_db {A} (o : outcome A) : DB :=
  match o with
  | Next _ db => db
  | Sent _ db => db
  | Thrown _ db => db
  end.

(** ** Properties of stores and responses *)

Definition rating_ok (z : Z) : Prop := 1 <= z <= 5.

(** A stored value is a number between two bounds; [null] is none. *)
Definition between (lo : Q) (hi : option Q) (v : option Number) : Prop :=
  match v with
  | Some x => (lo <= x)%Q /\ match hi with Some h => (x <= h)%Q | None => True end
  | None => False
  end.

Definition book_bounds (b : Book.doc) : Prop :=
  between 0 (Some 5%Q) (Book.averageRating b)
  /\ between 0 None (Book.totalReviews b).

(** Every stored review has a rating from 1 to 5. *)
Definition ratings_in_range (db : DB) : Prop :=
  Forall (fun r => rating_ok (Review.rating r)) (reviews db).

Definition bounds (db : DB) : Prop :=
  Forall book_bounds (books db) /\ ratings_in_range db.

(** The key of the unique index on reviews. *)
Definition pair (r : Review.doc) : ObjectId * ObjectId :=
  (Review.book r, Review.user r).

(** No two reviews share their book and user. *)
Definition unique_pairs (db : DB) : Prop :=
  NoDup (map pair (reviews db)).

(** [y] is [x] rounded to one decimal place: a whole number of tenths, no
    more than half a tenth away, a tie going up. *)
Definition rounded_to_one_decimal (x y : Q) : Prop :=
  exists m : Z,
    (y == inject_Z m / 10)%Q
    /\ (inject_Z m - (1 # 2) <= x * 10)%Q /\ (x * 10 < inject_Z m + (1 # 2))%Q.

(** The arithmetic mean of a list of ratings. *)
Definition mean (l : list Z) : Q :=
  (inject_Z (fold_right Z.add 0%Z l) / inject_Z (Z.of_nat (List.length l)))%Q.

(** The ratings of the reviews, among [l], that reference book [j]: the
    reviews are gone through one by one, and the rating of each one whose
    [book] is [j] is taken. *)
Fixpoint ratings_in (j : ObjectId) (l : list Review.doc) : list Z :=
  match l with
  | [] => []
  | r :: l' =>
      if Nat.eqb (Review.book r) j then Review.rating r :: ratings_in j l'
      else ratings_in j l'
  end.

(** [averageRating] and [totalReviews] of a book agree with the reviews that
    reference it: they are numbers, the count of those reviews and the mean
    of their ratings rounded to one decimal place (0 if there is none). *)
Definition consistent (db : DB) (b : Book.doc) : Prop :=
  let ratings := ratings_in (Book._id b) (reviews db) in
  match Book.totalReviews b, Book.averageRating b with
  | Some total, Some average =>
      (total == inject_Z (Z.of_nat (List.length ratings)))%Q
      /\ match ratings with
         | [] => (average == 0)%Q
         | _ => rounded_to_one_decimal (mean ratings) average
         end
  | _, _ => False
  end.






(** What the specification asks of a search: the books of which the title or
    the author contains the query, whatever the case of the letters. *)
Definition spec_Search (q : string) (db : DB) : list Book.doc :=
  filter (fun b => icontains q (Book.title b) || icontains q (Book.author b))
    (books db).

(** The tests a query by [_id], or by book and user, applies to a document. *)
Definition has_id (id : ObjectId) (b : Book.doc) : bool := Nat.eqb (Book._id b) id.

Definition is_review (id : ObjectId) (r : Review.doc) : bool :=
  Nat.eqb (Review._id r) id.

Definition by_pair (b u : ObjectId) (r : Review.doc) : bool :=
  Nat.eqb (Review.book r) b && Nat.eqb (Review.user r) u.

(** What [updateAverageRating] assigns. *)
Definition recomputed (ratings : list Z) : option Number * option Number :=
  if negb (is_nil ratings)
  then (Some (inject_Z (Math_round (bookSchema.avg ratings * 10)) / 10)%Q,
        Some (inject_Z (Z.of_nat (List.length ratings))))
  else (Some 0%Q, Some 0%Q).

(** The hook either leaves the store alone or writes validated aggregates. *)
Definition ratings_written (db db' : DB) : Prop :=
  db' = db
  \/ exists id a t,
       (0 <= a)%Q /\ (a <= 5)%Q /\ (0 <= t)%Q
       /\ db' = mkDB (bookSchema.update_ratings id (Some a) (Some t) (books db))
                  (reviews db) (clock db).

(** A body that sends no [null] for a derived field. *)
Definition no_null (body : BookData.t) : Prop :=
  BookData.averageRating body <> Null /\ BookData.totalReviews body <> Null.

(** What a route can do to the store, when it does anything. *)
Definition book_added (body : BookData.t) (db db' : DB) : Prop :=
  exists b, (no_null body -> book_bounds b)
            /\ db' = mkDB (books db ++ [b]) (reviews db)
                       (S (Nat.max (clock db) (Book._id b))).

Definition review_added (db db' : DB) : Prop :=
  exists r db1,
    rating_ok (Review.rating r)
    /\ reviewSchema.pair_taken (Review.book r) (Review.user r) db = false
    /\ db1 = mkDB (books db) (reviews db ++ [r]) (S (clock db))
    /\ ratings_written db1 db'.

Definition review_updated (db db' : DB) : Prop :=
  exists id rating comment db1,
    match rating with Some z => rating_ok z | None => True end
    /\ db1 = mkDB (books db)
               (reviewSchema.update_fields id rating comment (reviews db)) (clock db)
    /\ ratings_written db1 db'.

Definition review_removed (db db' : DB) : Prop :=
  exists id, db' = mkDB (books db) (reviewSchema.remove_id id (reviews db)) (clock db).

(** The book of a response, for a book detail and for a created book. *)
Definition detail_book (r : Response) : option Book.doc :=
  match json r with
  | J_detail b _ _ => Some b
  | _ => None
  end.

Definition created_book (r : Response) : option Book.doc :=
  match json r with
  | J_book _ b => Some b
  | _ => None
  end.

(** ** Sample requests and stores *)

Definition this_year : Z := 2026.
Definition alice : ObjectId := 1%nat.
Definition bob : ObjectId := 2%nat.
Definition carol : ObjectId := 7%nat.

Definition new_book (title author : string) (isbn : option string) : BookData.t :=
  BookData.mk (Some title) (Some author) (Some "SciFi") (Some "...")
    (Int 1965) isbn Absent Absent None Absent Absent.

Definition dune : BookData.t := new_book "Dune" "Herbert" None.

(** The book "Dune" alone. *)
Definition store_dune : DB := snd (post_books this_year carol dune empty_db).

(** ... reviewed by alice with a 4 ... *)
Definition store_one : DB :=
  snd (post_book_reviews contains_ci alice (Some 0%nat)
         (ReviewBody.mk (Int 4) (Some "a fine long read")) store_dune).

(** ... and by bob with a 2. *)
Definition store_two : DB :=
  snd (post_book_reviews contains_ci bob (Some 0%nat)
         (ReviewBody.mk (Int 2) (Some "not my cup of tea")) store_one).

(** Three books, two of which a search for "dune" is to find. *)
Definition library : DB :=
  snd (post_books this_year carol (new_book "Atlas" "Rand" None)
         (snd (post_books this_year carol (new_book "Sand" "Duneworth" None)
                 (snd (post_books this_year carol
                         (new_book "Dune II" "Herbert" (Some "0-441-17271-7"))
                         empty_db))))).

(** A store of [n] books and no review. *)
Definition shelf (n : nat) : DB :=
  mkDB (map (fun i => Book.mk i "Dune" "Herbert" "SciFi" "..." 1965 None
                        (Some 0%Q) (Some 0%Q) carol i) (seq 0 n))
    [] n.

(** A body that names the derived fields. *)
Definition rated_book : BookData.t :=
  BookData.mk (Some "Dune") (Some "Herbert") (Some "SciFi") (Some "...")
    (Int 1965) None (Value 5%Q) (Value 100%Q) None Absent Absent.

(** A body that sends [null] for the derived fields. *)
Definition unrated_book : BookData.t :=
  BookData.mk (Some "Dune") (Some "Herbert") (Some "SciFi") (Some "...")
    (Int 1965) None Null Null None Absent Absent.

(** A "Dune" that asks for the identifier 0 and a creation time of 5. *)
Definition dune_at_zero : BookData.t :=
  BookData.mk (Some "Dune") (Some "Herbert") (Some "SciFi") (Some "...")
    (Int 1965) None Absent Absent None (Value 0%nat) (Value 5%nat).

(** A second "Dune", with the ISBN of "Dune II". *)
Definition dune_again : BookData.t :=
  new_book "Dune" "Herbert" (Some "0-441-17271-7").

(** The book and alice's review as [store_two] holds them. *)
Definition dune_two : Book.doc :=
  Book.mk 0%nat "Dune" "Herbert" "SciFi" "..." 1965 None
    (Some (30 # 10)) (Some (2 # 1)) carol 0%nat.

Definition alice_review : Review.doc :=
  Review.mk 1%nat 4 "a fine long read" 0%nat alice 1%nat.

Definition dune_ii : Book.doc :=
  Book.mk 0%nat "Dune II" "Herbert" "SciFi" "..." 1965 (Some "0-441-17271-7")
    (Some 0%Q) (Some 0%Q) carol 0%nat.

Definition second_read : ReviewBody.t :=
  ReviewBody.mk Undefined (Some "  worth a second read  ").

(** ** Further properties of stores and responses *)

(** The records a listing shows. *)
Definition books_of (r : Response) : list Book.doc :=
  match json r with
  | J_books l _ => l
  | _ => []
  end.

Definition reviews_of (r : Response) : list Review.doc :=
  match json r with
  | J_detail _ l _ => l
  | _ => []
  end.


(** What [GET /books] asks of a book, one query value at a time. *)
Definition field_matches (regex_i : Regex)
  (v : option string) (s : string) : bool :=
  match v with
  | Some p => if notEmpty (trim p) then regex_test regex_i (trim p) s else true
  | None => true
  end.

(** The ISBNs of the books that have one. *)
Definition isbns (l : list Book.doc) : list string :=
  flat_map (fun b => match Book.isbn b with Some s => [s] | None => [] end) l.

(** No two books share an ISBN. *)
Definition unique_isbns (db : DB) : Prop := NoDup (isbns (books db)).

(** Each identifier is in use once: those in use are below the counter, a
    review refers to a stored book, and no two documents of a collection
    share their identifier. *)
Definition ids_fresh (db : DB) : Prop :=
  Forall (fun b => (Book._id b < clock db)%nat) (books db)
  /\ Forall (fun r => (Review._id r < clock db)%nat) (reviews db)
  /\ Forall (fun r => In (Review.book r) (map Book._id (books db))) (reviews db)
  /\ NoDup (map Book._id (books db))
  /\ NoDup (map Review._id (reviews db)).

(** The aggregates of book [k], if the store has it, were recomputed from the
    reviews and written; nothing else changed. *)
Definition aggregates_written (k : ObjectId) (db db' : DB) : Prop :=
  let r := recomputed (ratings_in k (reviews db)) in
  db' = mkDB (bookSchema.update_ratings k (fst r) (snd r) (books db))
          (reviews db) (clock db).

(** A request that neither deletes a review nor names the derived fields of a
    new book. *)
Definition recomputing (rq : Request) : Prop :=
  match rq with
  | DeleteReview _ _ => False
  | AddBook _ body =>
      BookData.averageRating body = Absent /\ BookData.totalReviews body = Absent
  | _ => True
  end.

(** A request that sends no [null] for a derived field of a new book. *)
Definition numeric (rq : Request) : Prop :=
  match rq with
  | AddBook _ body => no_null body
  | _ => True
  end.

Section ServerBy.
Variable regex_i : Regex.
Variable currentYear : Z.
Variable allowed : Request -> Prop.

(** The stores the server reaches by requests of a kind. *)
Inductive reachable_by : DB -> Prop :=
| reach_by_empty : reachable_by empty_db
| reach_by_serve db rq :
    allowed rq -> reachable_by db ->
    reachable_by (snd (serve regex_i currentYear rq db)).
End ServerBy.

(** What the routes that write do to the store, when they write. *)
Definition book_appended (body : BookData.t) (db db' : DB) : Prop :=
  exists b,
    db' = mkDB (books db ++ [b]) (reviews db)
            (S (Nat.max (clock db) (Book._id b)))
    /\ bookSchema.id_taken (Book._id b) db = false
    /\ bookSchema.isbn_taken (Book.isbn b) db = false
    /\ (BookData.averageRating body = Absent ->
        BookData.totalReviews body = Absent ->
        Book.averageRating b = Some 0%Q /\ Book.totalReviews b = Some 0%Q).

Definition review_appended (regex_i : Regex)
  (db db' : DB) : Prop :=
  exists r,
    Review._id r = clock db
    /\ In (Review.book r) (map Book._id (books db))
    /\ rating_ok (Review.rating r)
    /\ db' = outcome_db
               (reviewSchema.post_save regex_i r
                  (mkDB (books db) (reviews db ++ [r]) (S (clock db)))).

Definition review_rewritten_at (regex_i : Regex)
  (i : ObjectId) (db db' : DB) : Prop :=
  exists review rt cm,
    List.find (is_review i) (reviews db) = Some review
    /\ match rt with Some z => rating_ok z | None => True end
    /\ db' = outcome_db
               (reviewSchema.post_save regex_i
                  (reviewSchema.set_fields rt cm review)
                  (mkDB (books db)
                     (reviewSchema.update_fields i rt cm (reviews db))
                     (clock db))).

Definition review_rewritten (regex_i : Regex)
  (db db' : DB) : Prop :=
  exists i, review_rewritten_at regex_i i db db'.

(** Within bounds, identifiers fresh, and every book's aggregates in step
    with its reviews. *)
Definition in_step (db : DB) : Prop :=
  bounds db /\ ids_fresh db /\ Forall (consistent db) (books db).

(** [store_two] after bob deleted his review: the aggregates of "Dune" are
    those of two reviews still. *)
Definition store_stale : DB :=
  snd (delete_review contains_ci bob (Some 2%nat) store_two).

(** A body that changes nothing. *)
Definition no_change : ReviewBody.t := ReviewBody.mk Undefined None.

(** A body the validators of an update refuse: a rating of 9. *)
Definition overrated : ReviewBody.t := ReviewBody.mk (Int 9) None.

(** A title of 201 letters. *)
Definition long_title : string :=
  string_of_list_ascii (repeat "a"%char 201).

(** A valid review body, with white space around its comment. *)
Definition fine_read : ReviewBody.t :=
  ReviewBody.mk (Int 4) (Some "  a fine long read  ").

(** A valid book body but for its title of 201 letters. *)
Definition long_book : BookData.t := new_book long_title "Herbert" None.

(** [store_stale] after the aggregator ran on "Dune". *)
Definition store_fixed : DB :=
  outcome_db (bookSchema.updateAverageRating dune_two store_stale).

(** * Properties *)

(** ** Strings *)

Lemma ltrim_idem l : ltrim (ltrim l) = ltrim l.
Proof.
  induction l as [|c l IH]; simpl; auto.
  destruct (is_space c) eqn:E; auto. simpl. now rewrite E.
Qed.

Lemma ltrim_clean l : starts_clean (ltrim l).
Proof.
  induction l as [|c l IH]; simpl; auto.
  destruct (is_space c) eqn:E; auto.
Qed.

Lemma ltrim_fix l : starts_clean l -> ltrim l = l.
Proof. destruct l as [|c l]; simpl; auto. now intros ->. Qed.

Lemma ltrim_app_clean l c k :
  is_space c = false ->
  ltrim (l ++ c :: k) = ltrim l ++ c :: k
  \/ (ltrim l = [] /\ ltrim (l ++ c :: k) = c :: k).
Proof.
  intros Hc. induction l as [|a l IH]; simpl.
  - rewrite Hc. now left.
  - destruct (is_space a); auto.
Qed.

Lemma rtrim_clean l : starts_clean l -> starts_clean (rtrim l).
Proof.
  unfold rtrim. destruct l as [|c l]; simpl; auto.
  intros Hc.
  destruct (ltrim_app_clean (rev l) c [] Hc) as [H|[_ H]]; rewrite H.
  - rewrite rev_app_distr. simpl. exact Hc.
  - simpl. exact Hc.
Qed.

Lemma rtrim_idem l : rtrim (rtrim l) = rtrim l.
Proof. unfold rtrim. now rewrite rev_involutive, ltrim_idem. Qed.

(** Trimming twice, as the sanitizer and then the schema's setter do, is
    trimming once. *)
Lemma trim_idem s : trim (trim s) = trim s.
Proof.
  unfold trim. rewrite list_ascii_of_string_of_list_ascii.
  rewrite (ltrim_fix (rtrim _)) by (apply rtrim_clean, ltrim_clean).
  now rewrite rtrim_idem.
Qed.

Lemma isbn_char_not_space c : isbn_char c = true -> is_space c = false.
Proof.
  destruct c as [[] [] [] [] [] [] [] []]; vm_compute; congruence.
Qed.

Lemma ltrim_isbn l : forallb isbn_char l = true -> ltrim l = l.
Proof.
  destruct l as [|c l]; simpl; auto.
  intros H. apply andb_prop in H as [H _].
  now rewrite (isbn_char_not_space _ H).
Qed.

Lemma forallb_rev {A} (f : A -> bool) l : forallb f (rev l) = forallb f l.
Proof.
  induction l as [|a l IH]; simpl; auto.
  rewrite forallb_app, IH. simpl. rewrite andb_true_r. apply andb_comm.
Qed.

(** An ISBN that passes the pattern has nothing to trim. *)
Lemma trim_isbn s : isbn_pattern s = true -> trim s = s.
Proof.
  unfold isbn_pattern, trim. intros H.
  apply andb_prop in H as [H _]. apply andb_prop in H as [H _].
  rewrite (ltrim_isbn _ H). unfold rtrim.
  rewrite ltrim_isbn by now rewrite forallb_rev.
  now rewrite rev_involutive, string_of_list_ascii_of_string.
Qed.

(** ** Numbers *)

Lemma sum_bounds l :
  Forall rating_ok l ->
  Z.of_nat (List.length l) <= bookSchema.sum l <= 5 * Z.of_nat (List.length l).
Proof.
  induction 1 as [|z l Hz _ IH]; simpl bookSchema.sum; simpl List.length.
  - lia.
  - unfold rating_ok in Hz. unfold bookSchema.sum in *. simpl. lia.
Qed.

Lemma Math_round_spec (x : Q) :
  (inject_Z (Math_round x) - (1 # 2) <= x)%Q
  /\ (x < inject_Z (Math_round x) + (1 # 2))%Q.
Proof.
  unfold Math_round. split.
  - pose proof (Qfloor_le (x + (1 # 2))) as H.
    apply (Qplus_le_l _ _ (1 # 2)). ring_simplify.
    eapply Qle_trans; [|exact H]. ring_simplify. apply Qle_refl.
  - pose proof (Qlt_floor (x + (1 # 2))) as H.
    apply (Qplus_lt_l _ _ (1 # 2)).
    eapply Qlt_le_trans; [exact H|].
    rewrite inject_Z_plus. ring_simplify. apply Qle_refl.
Qed.

Lemma inject_Z_pos z : 0 < z -> (0 < inject_Z z)%Q.
Proof. intros H. change 0%Q with (inject_Z 0). now rewrite <- Zlt_Qlt. Qed.

Lemma length_pos {A} (l : list A) : l <> [] -> 0 < Z.of_nat (List.length l).
Proof. destruct l; [congruence|simpl; lia]. Qed.

Lemma avg_scaled l :
  l <> [] ->
  (bookSchema.avg l * 10
   == inject_Z (10 * bookSchema.sum l) / inject_Z (Z.of_nat (List.length l)))%Q.
Proof.
  intros Hl. unfold bookSchema.avg. rewrite inject_Z_mult.
  field. intros H. pose proof (inject_Z_pos _ (length_pos l Hl)) as Hp.
  rewrite H in Hp. discriminate.
Qed.

(** The rounded mean of ratings between 1 and 5 is between 10 and 50 tenths. *)
Lemma Math_round_avg_bounds l :
  l <> [] -> Forall rating_ok l ->
  10 <= Math_round (bookSchema.avg l * 10)%Q <= 50.
Proof.
  intros Hl Hok. pose proof (sum_bounds l Hok) as Hs.
  pose proof (length_pos l Hl) as Hn.
  set (n := Z.of_nat (List.length l)) in *.
  assert (10 <= bookSchema.avg l * 10 /\ bookSchema.avg l * 10 <= 50)%Q
    as [Hlo Hhi].
  { rewrite avg_scaled by assumption. fold n. split.
    - apply Qle_shift_div_l; [now apply inject_Z_pos|].
      change 10%Q with (inject_Z 10). rewrite <- inject_Z_mult, <- Zle_Qle. lia.
    - apply Qle_shift_div_r; [now apply inject_Z_pos|].
      change 50%Q with (inject_Z 50). rewrite <- inject_Z_mult, <- Zle_Qle. lia. }
  unfold Math_round. split.
  - change 10 with (Qfloor (inject_Z 10)) at 1. apply Qfloor_resp_le.
    eapply Qle_trans; [exact Hlo|].
    rewrite <- (Qplus_0_r (bookSchema.avg l * 10)) at 1.
    apply Qplus_le_r. discriminate.
  - change 50 with (Qfloor (50 + (1 # 2))%Q) at 1. apply Qfloor_resp_le.
    now apply Qplus_le_l.
Qed.

Lemma tenths_bounds m :
  0 <= m <= 50 -> (0 <= inject_Z m / 10)%Q /\ (inject_Z m / 10 <= 5)%Q.
Proof.
  intros [H0 H5]. split.
  - apply Qle_shift_div_l; [reflexivity|].
    change (0 * 10)%Q with (inject_Z 0). now rewrite <- Zle_Qle.
  - apply Qle_shift_div_r; [reflexivity|].
    change (5 * 10)%Q with (inject_Z 50). now rewrite <- Zle_Qle.
Qed.

Lemma check_averageRating_ok x :
  bookSchema.check_averageRating (Some x) = [] <-> (0 <= x)%Q /\ (x <= 5)%Q.
Proof.
  unfold bookSchema.check_averageRating. rewrite <- !Qle_bool_iff.
  destruct (Qle_bool 0 x), (Qle_bool x 5); simpl; intuition congruence.
Qed.

Lemma check_totalReviews_ok x :
  bookSchema.check_totalReviews (Some x) = [] <-> (0 <= x)%Q.
Proof.
  unfold bookSchema.check_totalReviews. rewrite <- Qle_bool_iff.
  destruct (Qle_bool 0 x); simpl; intuition congruence.
Qed.

Lemma count_nonneg (n : nat) : (0 <= inject_Z (Z.of_nat n))%Q.
Proof. change 0%Q with (inject_Z 0). rewrite <- Zle_Qle. lia. Qed.


(** An integer of at most 53 bits is read as it is written. *)
Lemma to_double_exact z : Z.abs z <= 2 ^ 53 -> to_double z = z.
Proof.
  intros H. unfold to_double.
  destruct (Z.leb_spec (Z.log2 (Z.abs z) - 52) 0) as [|He]; [reflexivity|].
  assert (Z.abs z = 2 ^ 53) as E.
  { apply Z.le_antisymm; [exact H|].
    destruct (Z.lt_ge_cases (Z.abs z) (2 ^ 53)) as [Hlt|]; [|assumption].
    assert (0 < Z.abs z) as Hpos.
    { destruct (Z.eq_dec (Z.abs z) 0) as [E0|]; [|lia].
      rewrite E0 in He. simpl in He. lia. }
    apply Z.log2_lt_pow2 in Hlt; lia. }
  assert (z = 2 ^ 53 \/ z = - 2 ^ 53) as [->| ->] by lia; reflexivity.
Qed.

(** A larger one is read as no less than [2 ^ 53]. *)
Lemma to_double_large z : 2 ^ 53 <= z -> 2 ^ 53 <= to_double z.
Proof.
  intros H. unfold to_double.
  destruct (Z.leb_spec (Z.log2 (Z.abs z) - 52) 0) as [|He]; [exact H|].
  assert (0 < z) as Hz by (pose proof (Z.pow_pos_nonneg 2 53); lia).
  rewrite Z.abs_eq in * by lia. rewrite Z.sgn_pos by lia.
  set (e := Z.log2 z - 52) in *.
  assert (0 < 2 ^ e) as Hp by (apply Z.pow_pos_nonneg; lia).
  assert (2 ^ 52 <= z / 2 ^ e) as Hq.
  { apply Z.div_le_lower_bound; [exact Hp|].
    rewrite Z.mul_comm, <- Z.pow_add_r by lia.
    replace (52 + e) with (Z.log2 z) by (unfold e; lia).
    apply Z.log2_spec. exact Hz. }
  assert (2 <= 2 ^ e) as H2.
  { change 2 with (2 ^ 1) at 1. apply Z.pow_le_mono_r; lia. }
  match goal with |- _ <= 1 * ((if ?c then _ else _) * _) => destruct c end;
    change (2 ^ 53) with (2 ^ 52 * 2); nia.
Qed.

Lemma to_double_pos z : 1 <= z -> 1 <= to_double z.
Proof.
  intros H. destruct (Z.le_gt_cases z (2 ^ 53)) as [Hs|Hl].
  - rewrite to_double_exact; [exact H|]. rewrite Z.abs_eq; lia.
  - pose proof (to_double_large z ltac:(lia)) as Hd.
    change (2 ^ 53) with 9007199254740992 in Hd. lia.
Qed.

(** ** Queries and pages *)

Lemma when_nil b m : when b m = [] <-> b = false.
Proof. destruct b; simpl; intuition congruence. Qed.

Lemma In_firstn {A} n (l : list A) x : In x (firstn n l) -> In x l.
Proof. intros H. rewrite <- (firstn_skipn n l). apply in_or_app. now left. Qed.

Lemma In_skipn {A} n (l : list A) x : In x (skipn n l) -> In x l.
Proof. intros H. rewrite <- (firstn_skipn n l). apply in_or_app. now right. Qed.

Section QueryFacts.
Variable regex_i : Regex.
Context {D : Type} (M : Model D).



Lemma insert_desc_In x y l : In y (insert_desc M x l) <-> y = x \/ In y l.
Proof.
  induction l as [|z l IH]; simpl.
  - intuition.
  - destruct (created M z <? created M x)%nat; simpl; rewrite ?IH; intuition.
Qed.

Lemma sort_In y l : In y (sort_createdAt_desc M l) <-> In y l.
Proof.
  induction l as [|x l IH]; simpl; [tauto|].
  rewrite insert_desc_In, IH. intuition.
Qed.

Lemma skip_skipn n (l : list D) : skip n l = skipn (Z.to_nat n) l.
Proof.
  unfold skip. destruct (Z.leb_spec (Z.of_nat (List.length l)) n); [|reflexivity].
  symmetry. apply skipn_all2. lia.
Qed.

Lemma limit_firstn n (l : list D) : limit n l = firstn (Z.to_nat n) l.
Proof.
  unfold limit. destruct (Z.leb_spec (Z.of_nat (List.length l)) n); [|reflexivity].
  symmetry. apply firstn_all2. lia.
Qed.


Lemma find_page_In f s n db d :
  In d (find_page regex_i M f s n db) ->
  In d (collection M db) /\ matches regex_i M f d = true.
Proof.
  unfold find_page, find. rewrite limit_firstn, skip_skipn. intros H.
  apply In_firstn, In_skipn in H.
  apply (proj1 (sort_In _ _)) in H. now apply filter_In in H.
Qed.
End QueryFacts.



Lemma limit_of_int z : 1 <= z <= 50 -> limit_of (Int z) = z.
Proof.
  intros H. unfold limit_of, parseInt_or. simpl.
  rewrite to_double_exact
    by (rewrite Z.abs_eq by lia; change (2 ^ 53) with 9007199254740992; lia).
  destruct (Z.eqb_spec z 0); lia.
Qed.

Lemma check_paging_ok page limit :
  check_paging page limit = [] ->
  1 <= page_of page /\ 1 <= limit_of limit <= 50.
Proof.
  unfold check_paging. intros H. apply app_eq_nil in H as [Hp Hl].
  apply when_nil, negb_false_iff in Hp. apply when_nil, negb_false_iff in Hl.
  split.
  - destruct page as [|z|p]; simpl in Hp; try discriminate Hp;
      [change (page_of Undefined) with 1; lia|].
    rewrite andb_true_r in Hp. apply Z.leb_le in Hp.
    unfold page_of, parseInt_or. simpl.
    pose proof (to_double_pos z Hp).
    destruct (Z.eqb_spec (to_double z) 0); lia.
  - destruct limit as [|y|q]; simpl in Hl; try discriminate Hl;
      [change (limit_of Undefined) with 10; lia|].
    apply andb_prop in Hl as [H1 H2]. apply Z.leb_le in H1, H2.
    rewrite limit_of_int; lia.
Qed.

Lemma get_books_ok regex_i page limit author genre db :
  check_paging page limit = [] ->
  well_formed regex_i
    (books_filter (option_map trim author) (option_map trim genre)) = true ->
  get_books regex_i page limit author genre db
  = (let f := books_filter (option_map trim author) (option_map trim genre) in
     mkResponse 200
       (J_books (find_page regex_i BookModel f
                   ((page_of page - 1) * limit_of limit) (limit_of limit) db)
          (pagination (page_of page) (limit_of limit)
             (countDocuments regex_i BookModel f db))), db).
Proof.
  intros H Hf. unfold get_books, try_catch, exec, bind. rewrite H.
  cbn [is_nil negb]. now rewrite Hf.
Qed.

(** A filter the store refuses is answered with 500. *)
Lemma get_books_refused regex_i page limit author genre db :
  check_paging page limit = [] ->
  well_formed regex_i
    (books_filter (option_map trim author) (option_map trim genre)) = false ->
  get_books regex_i page limit author genre db
  = (mkResponse 500 (J_error "Server error while fetching books"), db).
Proof.
  intros H Hf. unfold get_books, try_catch, exec, bind. rewrite H.
  cbn [is_nil negb]. now rewrite Hf.
Qed.

Lemma search_page_ok regex_i {D} (Book : Model D) q page limit db :
  well_formed regex_i (searchFilter q) = true ->
  search_page regex_i Book q page limit db
  = Next (find_page regex_i Book (searchFilter q)
            ((page_of page - 1) * limit_of limit) (limit_of limit) db,
          pagination (page_of page) (limit_of limit)
            (countDocuments regex_i Book (searchFilter q) db)) db.
Proof.
  intros Hf. unfold search_page, exec, bind. now rewrite Hf.
Qed.

Lemma search_page_refused regex_i {D} (Book : Model D) q page limit db :
  well_formed regex_i (searchFilter q) = false ->
  search_page regex_i Book q page limit db = Thrown (MongoError "regex") db.
Proof.
  intros Hf. unfold search_page, exec, bind. now rewrite Hf.
Qed.

Lemma text_of_trim q : text_of (option_map trim q) = trim (text_of q).
Proof. destruct q; simpl; auto. Qed.

Lemma get_search_ok regex_i q page limit db :
  check_paging page limit = [] ->
  notEmpty (trim (text_of q)) = true ->
  well_formed regex_i (searchFilter (trim (text_of q))) = true ->
  get_search regex_i q page limit db
  = (let f := searchFilter (trim (text_of q)) in
     mkResponse 200
       (J_search (trim (text_of q))
          (find_page regex_i search_Book f
             ((page_of page - 1) * limit_of limit) (limit_of limit) db)
          (pagination (page_of page) (limit_of limit)
             (countDocuments regex_i search_Book f db))), db).
Proof.
  intros H Hq Hf. unfold get_search, try_catch, bind. rewrite H, Hq.
  cbn [is_nil negb when app]. rewrite text_of_trim.
  rewrite search_page_ok by assumption. reflexivity.
Qed.








(** ** The rating aggregator *)

Lemma findById_book regex_i id db :
  findById regex_i BookModel id db = List.find (has_id id) (books db).
Proof. reflexivity. Qed.

Lemma find_update_ratings id a t l :
  List.find (has_id id) (bookSchema.update_ratings id a t l)
  = option_map (bookSchema.set_ratings a t) (List.find (has_id id) l).
Proof.
  induction l as [|b l IH]; simpl; auto. unfold has_id at 2.
  destruct (Nat.eqb (Book._id b) id) eqn:E; simpl.
  - unfold has_id. simpl. now rewrite E.
  - unfold has_id at 1. now rewrite E.
Qed.

Lemma find_update_ratings_other id id' a t l :
  id' <> id ->
  List.find (has_id id') (bookSchema.update_ratings id a t l)
  = List.find (has_id id') l.
Proof.
  intros Hne. induction l as [|b l IH]; simpl; auto.
  destruct (Nat.eqb (Book._id b) id) eqn:E; simpl.
  - unfold has_id. simpl. apply Nat.eqb_eq in E.
    destruct (Nat.eqb_spec (Book._id b) id'); [congruence|reflexivity].
  - now rewrite IH.
Qed.

Lemma find_has_id id l b : List.find (has_id id) l = Some b -> Book._id b = id.
Proof. intros H. apply find_some in H as [_ H]. now apply Nat.eqb_eq. Qed.

(** The aggregation selects the reviews one finds by going through them
    one by one. *)
Lemma ratings_of_in j db : bookSchema.ratings_of j db = ratings_in j (reviews db).
Proof.
  unfold bookSchema.ratings_of.
  induction (reviews db) as [|r l IH]; simpl; [reflexivity|].
  destruct (Nat.eqb (Review.book r) j); simpl; now rewrite IH.
Qed.

Lemma ratings_in_app j l1 l2 :
  ratings_in j (l1 ++ l2) = (ratings_in j l1 ++ ratings_in j l2)%list.
Proof.
  induction l1 as [|r l1 IH]; simpl; [reflexivity|].
  destruct (Nat.eqb (Review.book r) j); simpl; now rewrite IH.
Qed.

Lemma ratings_in_Forall (P : Z -> Prop) j l :
  Forall (fun r => P (Review.rating r)) l -> Forall P (ratings_in j l).
Proof.
  induction 1 as [|r l Hr _ IH]; simpl; [constructor|].
  destruct (Nat.eqb (Review.book r) j); auto.
Qed.

Lemma ratings_of_ok id db :
  ratings_in_range db -> Forall rating_ok (bookSchema.ratings_of id db).
Proof. intros H. rewrite ratings_of_in. now apply ratings_in_Forall. Qed.

Lemma rounded_mean l :
  rounded_to_one_decimal (mean l)
    (inject_Z (Math_round (bookSchema.avg l * 10)) / 10)%Q.
Proof.
  exists (Math_round (bookSchema.avg l * 10)%Q). split; [reflexivity|].
  apply (Math_round_spec (bookSchema.avg l * 10)%Q).
Qed.

Lemma recomputed_valid l :
  Forall rating_ok l ->
  (bookSchema.check_averageRating (fst (recomputed l))
   ++ bookSchema.check_totalReviews (snd (recomputed l))) = [].
Proof.
  intros Hl. unfold recomputed. destruct l as [|z l]; [reflexivity|].
  cbn [is_nil negb fst snd].
  rewrite (proj2 (check_averageRating_ok _)), (proj2 (check_totalReviews_ok _)); auto.
  - apply count_nonneg.
  - apply tenths_bounds.
    pose proof (Math_round_avg_bounds (z :: l) ltac:(discriminate) Hl). lia.
Qed.

Lemma updateAverageRating_unfold this db :
  bookSchema.updateAverageRating this db
  = let r := recomputed (bookSchema.ratings_of (Book._id this) db) in
    bookSchema.save_ratings (bookSchema.set_ratings (fst r) (snd r) this) db.
Proof.
  unfold bookSchema.updateAverageRating, bind, query, recomputed.
  destruct (bookSchema.ratings_of (Book._id this) db); reflexivity.
Qed.

Lemma updateAverageRating_ok this db :
  Forall rating_ok (bookSchema.ratings_of (Book._id this) db) ->
  bookSchema.updateAverageRating this db
  = let r := recomputed (bookSchema.ratings_of (Book._id this) db) in
    Next tt (mkDB (bookSchema.update_ratings (Book._id this) (fst r) (snd r) (books db))
               (reviews db) (clock db)).
Proof.
  intros H. rewrite updateAverageRating_unfold. cbv zeta.
  unfold bookSchema.save_ratings.
  cbn [Book.averageRating Book.totalReviews bookSchema.set_ratings Book._id].
  now rewrite recomputed_valid.
Qed.

Lemma recomputed_consistent db b :
  let r := recomputed (ratings_in (Book._id b) (reviews db)) in
  Book.averageRating b = fst r -> Book.totalReviews b = snd r -> consistent db b.
Proof.
  unfold consistent, recomputed. intros Ha Ht.
  destruct (ratings_in (Book._id b) (reviews db)) as [|z l] eqn:E;
    cbn [is_nil negb fst snd] in Ha, Ht; rewrite Ha, Ht.
  - split; reflexivity.
  - split; [reflexivity|]. apply rounded_mean.
Qed.

(** C5: [updateAverageRating], run on a stored book whose reviews carry
    ratings from 1 to 5, writes the book back with [totalReviews] the number
    of the stored reviews whose [book] is this one and [averageRating] the
    arithmetic mean of their ratings rounded to one decimal place, or 0 and
    0 when there is no such review; nothing else of the book, no other book
    and no review changes. *)
Theorem updateAverageRating_recomputes regex_i (db : DB) (this : Book.doc) :
  findById regex_i BookModel (Book._id this) db = Some this ->
  Forall rating_ok (ratings_in (Book._id this) (reviews db)) ->
  exists db' this',
    bookSchema.updateAverageRating this db = Next tt db'
    /\ reviews db' = reviews db
    /\ (forall j, j <> Book._id this ->
        findById regex_i BookModel j db' = findById regex_i BookModel j db)
    /\ findById regex_i BookModel (Book._id this) db' = Some this'
    /\ this' = bookSchema.set_ratings (Book.averageRating this')
                 (Book.totalReviews this') this
    /\ consistent db' this'
    /\ (ratings_in (Book._id this) (reviews db) = [] ->
        Book.averageRating this' = Some 0%Q /\ Book.totalReviews this' = Some 0%Q).
Proof.
  intros Hfind Hok.
  set (r := recomputed (ratings_in (Book._id this) (reviews db))).
  exists (mkDB (bookSchema.update_ratings (Book._id this) (fst r) (snd r) (books db))
            (reviews db) (clock db)),
    (bookSchema.set_ratings (fst r) (snd r) this).
  split. { subst r. rewrite <- ratings_of_in in *. now apply updateAverageRating_ok. }
  split; [reflexivity|].
  split. { intros j Hj. rewrite !findById_book. cbn [books].
           now apply find_update_ratings_other. }
  split. { rewrite findById_book in *. cbn [books]. rewrite find_update_ratings.
           now rewrite Hfind. }
  split; [reflexivity|].
  split. { apply recomputed_consistent; reflexivity. }
  intros E. subst r. rewrite E. split; reflexivity.
Qed.

Lemma updateAverageRating_recomputes_witness :
  ~ consistent store_stale dune_two
  /\ exists db' this',
       bookSchema.updateAverageRating dune_two store_stale = Next tt db'
       /\ reviews db' = reviews store_stale
       /\ (forall j, j <> 0%nat ->
           findById contains_ci BookModel j db'
           = findById contains_ci BookModel j store_stale)
       /\ findById contains_ci BookModel 0%nat db' = Some this'
       /\ this' = bookSchema.set_ratings (Book.averageRating this')
                    (Book.totalReviews this') dune_two
       /\ consistent db' this'
       /\ (ratings_in 0%nat (reviews store_stale) = [] ->
           Book.averageRating this' = Some 0%Q
           /\ Book.totalReviews this' = Some 0%Q).
Proof.
  split.
  - intros [H _]. vm_compute in H. discriminate H.
  - apply (updateAverageRating_recomputes contains_ci store_stale dune_two).
    + vm_compute. reflexivity.
    + change (Forall rating_ok [4]).
      constructor; [unfold rating_ok; lia|constructor].
Defined.


Lemma save_ratings_effect a t this db :
  ratings_written db
    (outcome_db (bookSchema.save_ratings
                   (bookSchema.set_ratings (Some a) (Some t) this) db)).
Proof.
  unfold bookSchema.save_ratings.
  cbn [Book.averageRating Book.totalReviews Book._id bookSchema.set_ratings].
  destruct (bookSchema.check_averageRating _) eqn:Ea; [|now left].
  destruct (bookSchema.check_totalReviews _) eqn:Et; [|now left].
  simpl. right. apply check_averageRating_ok in Ea as [? ?].
  apply check_totalReviews_ok in Et. eauto 10.
Qed.

Lemma updateAverageRating_effect this db :
  ratings_written db (outcome_db (bookSchema.updateAverageRating this db)).
Proof.
  unfold bookSchema.updateAverageRating, bind, query.
  destruct (negb _); apply save_ratings_effect.
Qed.

Lemma post_save_effect regex_i this db :
  ratings_written db (outcome_db (reviewSchema.post_save regex_i this db)).
Proof.
  unfold reviewSchema.post_save, bind, query.
  destruct (findById _ _ _ _); [apply updateAverageRating_effect|now left].
Qed.

Lemma update_ratings_bounds id a t l :
  (0 <= a)%Q -> (a <= 5)%Q -> (0 <= t)%Q ->
  Forall book_bounds l ->
  Forall book_bounds (bookSchema.update_ratings id (Some a) (Some t) l).
Proof.
  intros Ha Ha' Ht. induction 1 as [|b l Hb Hl IH]; simpl; [constructor|].
  destruct (Nat.eqb (Book._id b) id); constructor; auto.
  repeat split; assumption.
Qed.

Lemma ratings_written_books db db' :
  ratings_written db db' ->
  Forall book_bounds (books db) -> Forall book_bounds (books db').
Proof.
  intros [->|(id & a & t & Ha & Ha' & Ht & ->)] Hb; [assumption|].
  simpl. now apply update_ratings_bounds.
Qed.

Lemma ratings_written_reviews db db' :
  ratings_written db db' -> reviews db' = reviews db /\ clock db' = clock db.
Proof. intros [->|(id & a & t & _ & _ & _ & ->)]; auto. Qed.

Lemma ratings_written_range db db' :
  ratings_written db db' -> ratings_in_range db -> ratings_in_range db'.
Proof.
  intros H. unfold ratings_in_range.
  now rewrite (proj1 (ratings_written_reviews _ _ H)).
Qed.

Lemma ratings_written_bounds db db' :
  ratings_written db db' -> bounds db -> bounds db'.
Proof.
  intros H [Hb Hr].
  split; [eapply ratings_written_books|eapply ratings_written_range]; eassumption.
Qed.

(** *** Effects of the routes on the store *)

(** A document that passed validation has its aggregates within the bounds,
    unless the data hold [null] for one. *)
Lemma validate_bounds year d id now :
  bookSchema.validate year d = [] -> no_null d ->
  book_bounds (bookSchema.document d id now).
Proof.
  unfold bookSchema.validate, no_null. intros H [Hna Hnt].
  do 6 (apply app_eq_nil in H as [_ H]).
  apply app_eq_nil in H as [Hca H]. apply app_eq_nil in H as [Ha H].
  apply app_eq_nil in H as [Hct H]. apply app_eq_nil in H as [Ht _].
  unfold book_bounds, bookSchema.document.
  cbn [Book.averageRating Book.totalReviews].
  unfold bookSchema.default_averageRating, bookSchema.default_totalReviews in *.
  split.
  - destruct (BookData.averageRating d); try discriminate Hca; try congruence;
      cbn [bookSchema.with_default between] in *;
      apply check_averageRating_ok in Ha; exact Ha.
  - destruct (BookData.totalReviews d); try discriminate Hct; try congruence;
      cbn [bookSchema.with_default between] in *;
      apply check_totalReviews_ok in Ht; auto.
Qed.

Lemma post_books_effect year user body db :
  let db' := snd (post_books year user body db) in
  db' = db \/ book_added body db db'.
Proof.
  unfold post_books, try_catch.
  destruct (check_book year body); [|now left]. simpl.
  unfold bind, bookSchema.save_new.
  destruct (bookSchema.validate year _) eqn:Ev; [|now left].
  destruct (bookSchema.id_taken _ db); [now left|].
  destruct (bookSchema.isbn_taken _ db); [now left|].
  right.
  exists (bookSchema.document (bookData (sanitize_book body) user)
            (clock db) (clock db)).
  split; [|reflexivity].
  intros Hn. eapply validate_bounds; [exact Ev|exact Hn].
Qed.

Lemma get_books_effect regex_i page limit author genre db :
  snd (get_books regex_i page limit author genre db) = db.
Proof.
  unfold get_books, try_catch, exec, bind.
  destruct (check_paging page limit); [|reflexivity]. cbn [is_nil negb].
  destruct (well_formed _ _); reflexivity.
Qed.

Lemma search_page_effect regex_i {D} (Book : Model D) q page limit db :
  outcome_db (search_page regex_i Book q page limit db) = db.
Proof.
  unfold search_page, exec, bind. destruct (well_formed _ _); reflexivity.
Qed.

Lemma get_search_effect regex_i q page limit db :
  snd (get_search regex_i q page limit db) = db.
Proof.
  unfold get_search, try_catch, bind.
  destruct (when _ _ ++ check_paging page limit); [|reflexivity].
  cbn [is_nil negb].
  pose proof (search_page_effect regex_i search_Book
                (text_of (option_map trim q)) page limit db) as H.
  destruct (search_page _ _ _ _ _ _); exact H.
Qed.

Lemma get_book_effect regex_i id page limit db :
  snd (get_book regex_i id page limit db) = db.
Proof.
  unfold get_book, try_catch, bind, cast_id, query.
  destruct id as [i|]; [|reflexivity]. simpl.
  destruct (findById _ _ _ _); [|reflexivity].
  destruct (_ <? 0); reflexivity.
Qed.

Lemma check_rating_ok z : reviewSchema.check_rating z = [] <-> rating_ok z.
Proof.
  unfold reviewSchema.check_rating, rating_ok.
  destruct (Z.leb_spec 1 z), (Z.leb_spec z 5); simpl; split;
    intros; try discriminate; try lia; reflexivity.
Qed.

Lemma validate_review_rating d id now :
  reviewSchema.validate d = [] -> rating_ok (Review.rating (reviewSchema.document d id now)).
Proof.
  unfold reviewSchema.validate, reviewSchema.document. cbn [Review.rating].
  intros H. apply app_eq_nil in H as [H _].
  destruct (ReviewData.rating d) as [|z|]; try discriminate.
  now apply check_rating_ok.
Qed.

Lemma post_book_reviews_effect regex_i user id body db :
  let db' := snd (post_book_reviews regex_i user id body db) in
  db' = db \/ review_added db db'.
Proof.
  unfold post_book_reviews, try_catch.
  destruct (check_review body); [|now left]. simpl.
  unfold bind, cast_id, query.
  destruct id as [i|]; [|now left]. simpl.
  destruct (findById _ _ _ _); [|now left].
  destruct (findOne _ _ _ _); [now left|].
  unfold reviewSchema.save_new.
  destruct (reviewSchema.validate _) eqn:Ev; [|now left].
  unfold bind, query, reviewSchema.insert.
  destruct (reviewSchema.pair_taken _ _ db) eqn:Ep; [now left|].
  right.
  set (r := reviewSchema.document _ _ _) in *.
  set (db1 := mkDB _ _ _).
  exists r, db1. split; [eapply validate_review_rating, Ev|].
  split; [exact Ep|]. split; [reflexivity|].
  pose proof (post_save_effect regex_i r db1) as He.
  destruct (reviewSchema.post_save regex_i r db1); exact He.
Qed.

Lemma put_review_effect regex_i user id body db :
  let db' := snd (put_review regex_i user id body db) in
  db' = db \/ review_updated db db'.
Proof.
  unfold put_review, try_catch.
  destruct (check_review_update body); [|now left]. simpl.
  unfold bind, cast_id, query.
  destruct id as [i|]; [|now left]. simpl.
  destruct (findById _ _ _ _) as [review|]; [|now left].
  destruct (negb _); [now left|].
  unfold reviewSchema.save.
  destruct (_ ++ _) eqn:Ev; [|now left].
  unfold bind, ret.
  set (rt := assigned_rating _) in *. set (cm := assigned_comment _) in *.
  set (db1 := mkDB _ _ _).
  right. exists (Review._id review), rt, cm, db1.
  split. { apply app_eq_nil in Ev as [Ev _]. destruct rt; [now apply check_rating_ok|exact I]. }
  split; [reflexivity|].
  pose proof (post_save_effect regex_i (reviewSchema.set_fields rt cm review) db1) as He.
  destruct (reviewSchema.post_save _ _ db1); exact He.
Qed.

Lemma delete_review_effect regex_i user id db :
  let db' := snd (delete_review regex_i user id db) in
  db' = db \/ review_removed db db'.
Proof.
  unfold delete_review, try_catch, bind, cast_id, query.
  destruct id as [i|]; [|now left]. simpl.
  destruct (findById _ _ _ _) as [review|]; [|now left].
  destruct (negb _); [now left|]. simpl.
  right. now exists i.
Qed.


(** ** Invariants of the store *)

Lemma update_fields_ratings id rating comment l :
  match rating with Some z => rating_ok z | None => True end ->
  Forall (fun r => rating_ok (Review.rating r)) l ->
  Forall (fun r => rating_ok (Review.rating r))
    (reviewSchema.update_fields id rating comment l).
Proof.
  intros Hz. induction 1 as [|r l Hr Hl IH]; simpl; [constructor|].
  destruct (Nat.eqb (Review._id r) id); constructor; auto.
  destruct rating; simpl; auto.
Qed.

Lemma update_fields_pairs id rating comment l :
  map pair (reviewSchema.update_fields id rating comment l) = map pair l.
Proof.
  induction l as [|r l IH]; simpl; auto.
  destruct (Nat.eqb (Review._id r) id); simpl; [reflexivity|now rewrite IH].
Qed.

Lemma remove_id_In id l r : In r (reviewSchema.remove_id id l) -> In r l.
Proof.
  induction l as [|x l IH]; simpl; auto.
  destruct (Nat.eqb (Review._id x) id); simpl; intuition.
Qed.

Lemma remove_id_pairs id l :
  NoDup (map pair l) -> NoDup (map pair (reviewSchema.remove_id id l)).
Proof.
  induction l as [|x l IH]; simpl; auto.
  intros H. inversion H as [|? ? Hx Hl]; subst.
  destruct (Nat.eqb (Review._id x) id); auto.
  simpl. constructor; auto.
  intros Hin. apply Hx. apply in_map_iff in Hin as (r & Hr & Hin).
  apply in_map_iff. exists r. split; auto. eapply remove_id_In, Hin.
Qed.

Lemma pair_taken_In b u db :
  reviewSchema.pair_taken b u db = true <-> In (b, u) (map pair (reviews db)).
Proof.
  unfold reviewSchema.pair_taken. rewrite existsb_exists, in_map_iff.
  split; intros (r & H1 & H2); exists r.
  - apply andb_prop in H2 as [Hb Hu].
    apply Nat.eqb_eq in Hb, Hu. unfold pair. now subst.
  - inversion H1; subst. split; auto. now rewrite !Nat.eqb_refl.
Qed.

Lemma insert_pairs r db :
  reviewSchema.pair_taken (Review.book r) (Review.user r) db = false ->
  NoDup (map pair (reviews db)) -> NoDup (map pair (reviews db ++ [r])).
Proof.
  intros Hp Hn. rewrite map_app. simpl.
  apply NoDup_app; auto.
  - constructor; [intros []|constructor].
  - intros a Ha [<-|[]]. apply pair_taken_In in Ha. unfold pair in Ha.
    simpl in Ha. congruence.
Qed.

(** The ratings of the reviews stay from 1 to 5, whatever a route does. *)
Lemma review_removed_range db db' :
  review_removed db db' -> ratings_in_range db -> ratings_in_range db'.
Proof.
  intros [id ->] Hr. unfold ratings_in_range in *. simpl.
  rewrite Forall_forall in *. intros r Hin. eapply Hr, remove_id_In, Hin.
Qed.

Lemma review_updated_range db db' :
  review_updated db db' -> ratings_in_range db -> ratings_in_range db'.
Proof.
  intros (id & rt & cm & db1 & Hz & -> & Hw) Hr.
  eapply ratings_written_range; [exact Hw|].
  unfold ratings_in_range. simpl. now apply update_fields_ratings.
Qed.

Lemma review_added_range db db' :
  review_added db db' -> ratings_in_range db -> ratings_in_range db'.
Proof.
  intros (r & db1 & Hz & _ & -> & Hw) Hr.
  eapply ratings_written_range; [exact Hw|].
  unfold ratings_in_range. simpl. apply Forall_app. split; auto.
Qed.

Lemma book_added_range body db db' :
  book_added body db db' -> ratings_in_range db -> ratings_in_range db'.
Proof. intros (b & _ & ->) Hr. exact Hr. Qed.

(** The aggregates of the books stay within their bounds, as long as no new
    book brings [null]. *)
Lemma review_removed_books db db' :
  review_removed db db' ->
  Forall book_bounds (books db) -> Forall book_bounds (books db').
Proof. intros [id ->] Hb. exact Hb. Qed.

Lemma review_updated_books db db' :
  review_updated db db' ->
  Forall book_bounds (books db) -> Forall book_bounds (books db').
Proof.
  intros (id & rt & cm & db1 & Hz & -> & Hw) Hb.
  eapply ratings_written_books; [exact Hw|exact Hb].
Qed.

Lemma review_added_books db db' :
  review_added db db' ->
  Forall book_bounds (books db) -> Forall book_bounds (books db').
Proof.
  intros (r & db1 & Hz & _ & -> & Hw) Hb.
  eapply ratings_written_books; [exact Hw|exact Hb].
Qed.

Lemma book_added_books body db db' :
  book_added body db db' -> no_null body ->
  Forall book_bounds (books db) -> Forall book_bounds (books db').
Proof.
  intros (b & Hb' & ->) Hn Hb. simpl. apply Forall_app. split; auto.
Qed.

Lemma review_added_unique db db' :
  review_added db db' -> unique_pairs db -> unique_pairs db'.
Proof.
  intros (r & db1 & _ & Hp & -> & Hw) Hu. unfold unique_pairs in *.
  apply ratings_written_reviews in Hw as [-> _]. simpl.
  now apply insert_pairs.
Qed.

Lemma review_updated_unique db db' :
  review_updated db db' -> unique_pairs db -> unique_pairs db'.
Proof.
  intros (id & rt & cm & db1 & _ & -> & Hw) Hu. unfold unique_pairs in *.
  apply ratings_written_reviews in Hw as [-> _]. simpl.
  now rewrite update_fields_pairs.
Qed.

Lemma review_removed_unique db db' :
  review_removed db db' -> unique_pairs db -> unique_pairs db'.
Proof.
  intros [id ->] Hu. unfold unique_pairs in *. simpl. now apply remove_id_pairs.
Qed.

Lemma book_added_unique body db db' :
  book_added body db db' -> unique_pairs db -> unique_pairs db'.
Proof. intros (b & _ & ->) Hu. exact Hu. Qed.

(** What a request can do to the store. *)
Lemma serve_effect regex_i year rq db :
  let db' := snd (serve regex_i year rq db) in
  db' = db
  \/ (exists user body, rq = AddBook user body /\ book_added body db db')
  \/ review_added db db' \/ review_updated db db' \/ review_removed db db'.
Proof.
  destruct rq; simpl.
  - destruct (post_books_effect year user body db); eauto 6.
  - left. apply get_books_effect.
  - left. apply get_book_effect.
  - destruct (post_book_reviews_effect regex_i user id body db); auto.
  - destruct (put_review_effect regex_i user id body db); auto 6.
  - destruct (delete_review_effect regex_i user id db); auto 6.
  - left. apply get_search_effect.
Qed.

Lemma serve_range regex_i year rq db :
  ratings_in_range db -> ratings_in_range (snd (serve regex_i year rq db)).
Proof.
  intros H.
  destruct (serve_effect regex_i year rq db)
    as [->|[(user & body & _ & E)|[E|[E|E]]]]; auto;
    eauto using book_added_range, review_added_range, review_updated_range,
      review_removed_range.
Qed.

Lemma serve_books regex_i year rq db :
  numeric rq ->
  Forall book_bounds (books db) ->
  Forall book_bounds (books (snd (serve regex_i year rq db))).
Proof.
  intros Hrq H.
  destruct (serve_effect regex_i year rq db)
    as [->|[(user & body & -> & E)|[E|[E|E]]]]; auto;
    eauto using book_added_books, review_added_books, review_updated_books,
      review_removed_books.
Qed.

Lemma serve_bounds regex_i year rq db :
  numeric rq -> bounds db -> bounds (snd (serve regex_i year rq db)).
Proof.
  intros Hrq [Hb Hr]. split; [now apply serve_books|now apply serve_range].
Qed.

Lemma serve_unique regex_i year rq db :
  unique_pairs db -> unique_pairs (snd (serve regex_i year rq db)).
Proof.
  intros H.
  destruct (serve_effect regex_i year rq db)
    as [->|[(user & body & _ & E)|[E|[E|E]]]]; auto;
    eauto using book_added_unique, review_added_unique, review_updated_unique,
      review_removed_unique.
Qed.

Lemma bounds_empty : bounds empty_db.
Proof. split; constructor. Qed.

Lemma reachable_unique regex_i year db :
  reachable regex_i year db -> unique_pairs db.
Proof.
  induction 1 as [|db rq _ IH]; [constructor|now apply serve_unique].
Qed.

Lemma reachable_range regex_i year db :
  reachable regex_i year db -> ratings_in_range db.
Proof.
  induction 1 as [|db rq _ IH]; [constructor|now apply serve_range].
Qed.

Lemma reachable_by_bounds regex_i year db :
  reachable_by regex_i year numeric db -> bounds db.
Proof.
  induction 1 as [|db rq Hrq _ IH]; [apply bounds_empty|now apply serve_bounds].
Qed.

Lemma reachable_store_two : reachable contains_ci this_year store_two.
Proof.
  exact (reach_serve _ _ _ (SubmitReview bob (Some 0%nat)
                              (ReviewBody.mk (Int 2) (Some "not my cup of tea")))
           (reach_serve _ _ _ (SubmitReview alice (Some 0%nat)
                                 (ReviewBody.mk (Int 4) (Some "a fine long read")))
              (reach_serve _ _ _ (AddBook carol dune) (reach_empty _ _)))).
Qed.

Lemma between_None lo hi : ~ between lo hi None.
Proof. intros H. exact H. Qed.

(** C10: [POST /books] with a body that is valid and sends [null] for
    [averageRating] and [totalReviews] is answered with 201, and the store
    it leaves, which the server has reached, holds the book with [null] for
    both: no numbers from 0 to 5 and of at least 0. *)
Theorem null_aggregates_are_stored :
  let out := post_books this_year carol unrated_book empty_db in
  status (fst out) = 201
  /\ reachable contains_ci this_year (snd out)
  /\ (exists b,
        created_book (fst out) = Some b
        /\ books (snd out) = [b]
        /\ Book.averageRating b = None /\ Book.totalReviews b = None
        /\ ~ book_bounds b)
  /\ ~ bounds (snd out).
Proof.
  cbv zeta. split; [reflexivity|]. split; [|split].
  - exact (reach_serve contains_ci this_year empty_db (AddBook carol unrated_book)
             (reach_empty _ _)).
  - eexists. split; [reflexivity|]. split; [reflexivity|].
    split; [reflexivity|]. split; [reflexivity|].
    intros [H _]. exact H.
  - intros [H _]. inversion H as [|b l [Hb _] _]. exact Hb.
Qed.


(** ** Reviews: submitting, updating, deleting *)

Lemma findById_review regex_i id db :
  findById regex_i ReviewModel id db = List.find (is_review id) (reviews db).
Proof. reflexivity. Qed.

Lemma findOne_pair regex_i b u db :
  findOne regex_i ReviewModel (F_and (F_ref "book" b) (F_ref "user" u)) db
  = List.find (by_pair b u) (reviews db).
Proof. reflexivity. Qed.

Lemma find_none_existsb {A} (p : A -> bool) l :
  List.find p l = None <-> existsb p l = false.
Proof.
  induction l as [|a l IH]; simpl; [tauto|].
  destruct (p a); simpl; [split; discriminate|exact IH].
Qed.


Lemma find_update_fields id rt cm l :
  List.find (is_review id) (reviewSchema.update_fields id rt cm l)
  = option_map (reviewSchema.set_fields rt cm) (List.find (is_review id) l).
Proof.
  induction l as [|r l IH]; simpl; auto. unfold is_review at 2.
  destruct (Nat.eqb (Review._id r) id) eqn:E; simpl.
  - unfold is_review. simpl. now rewrite E.
  - unfold is_review at 1. now rewrite E.
Qed.










(** On a store whose ratings are in range the hook goes through. *)
Lemma post_save_ok regex_i this db :
  ratings_in_range db ->
  exists db', reviewSchema.post_save regex_i this db = Next tt db'
              /\ reviews db' = reviews db.
Proof.
  intros H. unfold reviewSchema.post_save, bind, query.
  destruct (findById _ _ _ _) as [b|].
  - rewrite updateAverageRating_ok by now apply ratings_of_ok.
    eexists. split; reflexivity.
  - eexists. split; reflexivity.
Qed.

(** The body of an update that passed the validators, as the handler reads it. *)
Lemma check_review_update_ok body :
  check_review_update body = [] ->
  match assigned_rating (sanitize_review body) with
  | Some z => reviewSchema.check_rating z
  | None => []
  end ++
  match assigned_comment (sanitize_review body) with
  | Some s => reviewSchema.check_comment s
  | None => []
  end = []
  /\ assigned_rating (sanitize_review body)
     = match ReviewBody.rating body with Int z => Some z | _ => None end
  /\ assigned_comment (sanitize_review body)
     = option_map trim (ReviewBody.comment body)
  /\ match ReviewBody.rating body with NotInt _ => False | _ => True end.
Proof.
  unfold check_review_update. intros H. apply app_eq_nil in H as [Hr Hc].
  apply when_nil in Hr, Hc. apply negb_false_iff in Hr.
  unfold assigned_rating, assigned_comment, sanitize_review.
  cbn [ReviewBody.rating ReviewBody.comment].
  destruct body as [rt cm]. cbn [ReviewBody.rating ReviewBody.comment] in *.
  split; [|split; [|split]].
  - assert (match cm with
            | Some s => reviewSchema.check_comment (trim (trim s))
            | None => []
            end = []) as Hcm.
    { destruct cm as [s|]; auto. rewrite trim_idem.
      apply negb_false_iff in Hc. unfold reviewSchema.check_comment.
      unfold isLength in Hc. now rewrite Hc. }
    destruct rt as [|z|]; simpl in Hr; try discriminate; simpl.
    + destruct cm; exact Hcm.
    + rewrite (proj2 (check_rating_ok z)).
      * destruct cm; exact Hcm.
      * apply andb_prop in Hr as [H1 H2]. unfold rating_ok. lia.
  - reflexivity.
  - destruct cm; simpl; [now rewrite trim_idem|reflexivity].
  - destruct rt; auto. discriminate.
Qed.

Lemma assigned_rating_ok body :
  check_review_update body = [] ->
  match assigned_rating (sanitize_review body) with
  | Some z => rating_ok z
  | None => True
  end.
Proof.
  intros H. destruct (check_review_update_ok _ H) as (Hv & _).
  apply app_eq_nil in Hv as [Hv _].
  destruct (assigned_rating _); [now apply check_rating_ok|exact I].
Qed.

(** The owner's update, on a store whose ratings are in range. *)
Lemma put_review_ok regex_i i body db review :
  ratings_in_range db -> check_review_update body = [] ->
  findById regex_i ReviewModel i db = Some review ->
  let rt := assigned_rating (sanitize_review body) in
  let cm := assigned_comment (sanitize_review body) in
  exists db',
    put_review regex_i (Review.user review) (Some i) body db
    = (mkResponse 200
         (J_review "Review updated successfully"
            (reviewSchema.set_fields rt cm review)), db')
    /\ reviews db' = reviewSchema.update_fields i rt cm (reviews db).
Proof.
  intros Hr Hc Hf rt cm.
  destruct (check_review_update_ok _ Hc) as (Hv & _).
  pose proof (assigned_rating_ok _ Hc) as Hz.
  assert (Review._id review = i) as Hi.
  { rewrite findById_review in Hf. apply find_some in Hf as [_ Hf].
    now apply Nat.eqb_eq. }
  unfold put_review, try_catch. rewrite Hc. simpl.
  unfold bind, cast_id, query, ret. rewrite Hf, Nat.eqb_refl. simpl.
  unfold reviewSchema.save. fold rt cm. fold rt cm in Hv, Hz. rewrite Hv.
  unfold bind, ret. rewrite Hi.
  set (db1 := mkDB _ _ _).
  destruct (post_save_ok regex_i (reviewSchema.set_fields rt cm review) db1)
    as (db' & -> & Hrev).
  { subst db1. unfold ratings_in_range. simpl. now apply update_fields_ratings. }
  exists db'. split; [reflexivity|exact Hrev].
Qed.

Lemma put_review_forbidden regex_i user i body db review :
  check_review_update body = [] ->
  findById regex_i ReviewModel i db = Some review ->
  user <> Review.user review ->
  put_review regex_i user (Some i) body db
  = (mkResponse 403 (J_error "You can only update your own reviews"), db).
Proof.
  intros Hc Hf Hu. unfold put_review, try_catch. rewrite Hc. simpl.
  unfold bind, cast_id, query, ret. rewrite Hf.
  destruct (Nat.eqb_spec (Review.user review) user); [congruence|reflexivity].
Qed.

Lemma delete_review_forbidden regex_i user i db review :
  findById regex_i ReviewModel i db = Some review ->
  user <> Review.user review ->
  delete_review regex_i user (Some i) db
  = (mkResponse 403 (J_error "You can only delete your own reviews"), db).
Proof.
  intros Hf Hu. unfold delete_review, try_catch, bind, cast_id, query, ret.
  rewrite Hf.
  destruct (Nat.eqb_spec (Review.user review) user); [congruence|reflexivity].
Qed.

Lemma delete_review_ok regex_i i db review :
  findById regex_i ReviewModel i db = Some review ->
  delete_review regex_i (Review.user review) (Some i) db
  = (mkResponse 200 (J_message "Review deleted successfully"),
     mkDB (books db) (reviewSchema.remove_id i (reviews db)) (clock db)).
Proof.
  intros Hf. unfold delete_review, try_catch, bind, cast_id, query, ret.
  rewrite Hf, Nat.eqb_refl. reflexivity.
Qed.

Lemma range_store_two : ratings_in_range store_two.
Proof. exact (reachable_range _ _ _ reachable_store_two). Qed.

Lemma remove_id_split i l r :
  List.find (is_review i) l = Some r ->
  exists l1 l2, l = l1 ++ r :: l2 /\ reviewSchema.remove_id i l = l1 ++ l2.
Proof.
  induction l as [|x l IH]; simpl; [discriminate|].
  unfold is_review at 1. destruct (Nat.eqb (Review._id x) i).
  - intros [= ->]. now exists [], l.
  - intros H. destruct (IH H) as (l1 & l2 & -> & ->). now exists (x :: l1), l2.
Qed.

(** An update whose body the validators refuse is answered with 400, whoever
    sends it. *)
Lemma put_review_invalid regex_i user id body db :
  check_review_update body <> [] ->
  put_review regex_i user id body db
  = (mkResponse 400 (J_errors (check_review_update body)), db).
Proof.
  intros H. unfold put_review, try_catch.
  destruct (check_review_update body); [congruence|reflexivity].
Qed.

(** C8 (amended): the owner's update with a valid body is answered with 200
    and stores the review with [rating] set to the rating given and [comment]
    set to the comment given with the white space around it trimmed; a field
    the body omits keeps its value, and the review's book, user, identifier
    and creation time are unchanged. *)
Theorem put_review_partial_update regex_i (db : DB) (i : ObjectId)
  (body : ReviewBody.t) (review : Review.doc) :
  ratings_in_range db ->
  findById regex_i ReviewModel i db = Some review ->
  check_review_update body = [] ->
  exists review' db',
    put_review regex_i (Review.user review) (Some i) body db
    = (mkResponse 200 (J_review "Review updated successfully" review'), db')
    /\ findById regex_i ReviewModel i db' = Some review'
    /\ Review.rating review'
       = match ReviewBody.rating body with
         | Int z => z
         | _ => Review.rating review
         end
    /\ Review.comment review'
       = match ReviewBody.comment body with
         | Some s => trim s
         | None => Review.comment review
         end
    /\ Review.book review' = Review.book review
    /\ Review.user review' = Review.user review
    /\ Review._id review' = Review._id review
    /\ Review.createdAt review' = Review.createdAt review.
Proof.
  intros Hb Hf Hc.
  destruct (put_review_ok regex_i i body db review Hb Hc Hf) as (db' & Hput & Hrev).
  destruct (check_review_update_ok _ Hc) as (_ & Hrt & Hcm & _).
  eexists _, db'. split; [exact Hput|].
  split. { rewrite findById_review in *. now rewrite Hrev, find_update_fields, Hf. }
  rewrite Hrt, Hcm. cbn.
  split. { destruct (ReviewBody.rating body); reflexivity. }
  split. { destruct (ReviewBody.comment body); reflexivity. }
  repeat split.
Qed.

Lemma put_review_partial_update_witness :
  exists review' db',
    put_review contains_ci alice (Some 1%nat) second_read store_two
    = (mkResponse 200 (J_review "Review updated successfully" review'), db')
    /\ findById contains_ci ReviewModel 1%nat db' = Some review'
    /\ Review.rating review' = 4
    /\ Review.comment review' = "worth a second read"
    /\ Review.book review' = 0%nat
    /\ Review.user review' = alice
    /\ Review._id review' = 1%nat
    /\ Review.createdAt review' = 1%nat.
Proof.
  apply (put_review_partial_update contains_ci store_two 1%nat second_read
           alice_review range_store_two); reflexivity.
Defined.

(** C9 (amended): for a stored review, a deletion by a user who is not its
    owner is answered with 403, and so is an update of theirs whose body
    passes the validators; an update whose body does not pass them is
    answered with 400 and the validators' messages, whoever sends it.  In
    each of these cases the whole store, so the review and its book's
    aggregates, is unchanged.  The owner's update with a valid body is
    answered with 200 and stores the review with the fields given; the
    owner's deletion is answered with 200 and takes that review, and nothing
    else, out of the store. *)
Theorem only_owner_mutates regex_i (db : DB) (user i : ObjectId)
  (body : ReviewBody.t) (review : Review.doc) :
  ratings_in_range db ->
  findById regex_i ReviewModel i db = Some review ->
  user <> Review.user review ->
  delete_review regex_i user (Some i) db
  = (mkResponse 403 (J_error "You can only delete your own reviews"), db)
  /\ (check_review_update body = [] ->
      put_review regex_i user (Some i) body db
      = (mkResponse 403 (J_error "You can only update your own reviews"), db))
  /\ (check_review_update body <> [] ->
      forall anyone,
        put_review regex_i anyone (Some i) body db
        = (mkResponse 400 (J_errors (check_review_update body)), db))
  /\ (check_review_update body = [] ->
      exists review' db',
        put_review regex_i (Review.user review) (Some i) body db
        = (mkResponse 200 (J_review "Review updated successfully" review'), db')
        /\ findById regex_i ReviewModel i db' = Some review'
        /\ Review.rating review'
           = match ReviewBody.rating body with
             | Int z => z
             | _ => Review.rating review
             end
        /\ Review.comment review'
           = match ReviewBody.comment body with
             | Some s => trim s
             | None => Review.comment review
             end)
  /\ (exists db',
        delete_review regex_i (Review.user review) (Some i) db
        = (mkResponse 200 (J_message "Review deleted successfully"), db')
        /\ books db' = books db
        /\ exists before after,
             reviews db = (before ++ review :: after)%list
             /\ reviews db' = (before ++ after)%list).
Proof.
  intros Hb Hf Hu.
  split; [now apply delete_review_forbidden with review|].
  split; [intros Hc; now apply put_review_forbidden with review|].
  split; [intros Hc anyone; now apply put_review_invalid|].
  split.
  - intros Hc.
    destruct (put_review_ok regex_i i body db review Hb Hc Hf) as (db' & Hput & Hrev).
    destruct (check_review_update_ok _ Hc) as (_ & Hrt & Hcm & _).
    eexists _, db'. split; [exact Hput|].
    split. { rewrite findById_review in *. now rewrite Hrev, find_update_fields, Hf. }
    rewrite Hrt, Hcm. cbn.
    split; [destruct (ReviewBody.rating body)|destruct (ReviewBody.comment body)];
      reflexivity.
  - eexists. split; [now apply delete_review_ok|].
    split; [reflexivity|]. cbn [reviews].
    rewrite findById_review in Hf.
    destruct (remove_id_split _ _ _ Hf) as (l1 & l2 & H1 & H2). eauto.
Qed.

Lemma only_owner_mutates_witness :
  delete_review contains_ci bob (Some 1%nat) store_two
  = (mkResponse 403 (J_error "You can only delete your own reviews"), store_two)
  /\ put_review contains_ci bob (Some 1%nat) second_read store_two
     = (mkResponse 403 (J_error "You can only update your own reviews"), store_two)
  /\ put_review contains_ci bob (Some 1%nat) overrated store_two
     = (mkResponse 400 (J_errors ["Rating must be between 1 and 5"]), store_two).
Proof.
  pose proof (only_owner_mutates contains_ci store_two bob 1%nat second_read
                alice_review range_store_two eq_refl ltac:(discriminate))
    as (Hd & Hp & _).
  pose proof (only_owner_mutates contains_ci store_two bob 1%nat overrated
                alice_review range_store_two eq_refl ltac:(discriminate))
    as (_ & _ & Hi & _).
  split; [exact Hd|]. split; [exact (Hp eq_refl)|].
  apply (Hi ltac:(discriminate) bob).
Defined.

(** C9, as stated, fails: a non-owner's update with a rating of 9 is answered
    with 400, not with 403. *)
Lemma put_review_invalid_is_400 :
  findById contains_ci ReviewModel 1%nat store_two = Some alice_review
  /\ bob <> Review.user alice_review
  /\ status (fst (put_review contains_ci bob (Some 1%nat) overrated store_two)) = 400
  /\ status (fst (put_review contains_ci bob (Some 1%nat) overrated store_two)) <> 403.
Proof. repeat split; try reflexivity; vm_compute; discriminate. Qed.


(** A non-owner changes nothing, whatever the body. *)
Lemma put_review_non_owner regex_i user i body db review :
  findById regex_i ReviewModel i db = Some review ->
  user <> Review.user review ->
  snd (put_review regex_i user (Some i) body db) = db
  /\ (status (fst (put_review regex_i user (Some i) body db)) = 400
      \/ status (fst (put_review regex_i user (Some i) body db)) = 403).
Proof.
  intros Hf Hu. destruct (check_review_update body) eqn:Hc.
  - rewrite (put_review_forbidden regex_i user i body db review) by assumption.
    auto.
  - unfold put_review, try_catch. rewrite Hc. auto.
Qed.

(** ** The aggregates after a review is saved or deleted *)

Lemma post_save_consistent regex_i this db db' b :
  reviewSchema.post_save regex_i this db = Next tt db' ->
  findById regex_i BookModel (Review.book this) db = Some b ->
  exists b', findById regex_i BookModel (Review.book this) db' = Some b'
             /\ consistent db' b'.
Proof.
  unfold reviewSchema.post_save, bind, query. intros H Hb. rewrite Hb in H.
  rewrite updateAverageRating_unfold in H. cbv zeta in H.
  rewrite ratings_of_in in H.
  unfold bookSchema.save_ratings in H.
  destruct (_ ++ _); [|discriminate]. injection H as <-.
  set (r := recomputed _).
  assert (Book._id b = Review.book this) as Hid
    by (rewrite findById_book in Hb; now apply find_has_id in Hb).
  exists (bookSchema.set_ratings (fst r) (snd r) b). split.
  - rewrite findById_book in *. cbn. rewrite Hid, find_update_ratings, Hb.
    reflexivity.
  - apply recomputed_consistent; reflexivity.
Qed.

(** The hook sends no response of its own. *)
Lemma post_save_not_sent regex_i this db r db' :
  reviewSchema.post_save regex_i this db <> Sent r db'.
Proof.
  unfold reviewSchema.post_save, bind, query.
  destruct (findById _ _ _ _); [|discriminate].
  rewrite updateAverageRating_unfold. cbv zeta. unfold bookSchema.save_ratings.
  destruct (_ ++ _); discriminate.
Qed.

(** A submission answered with 201 leaves the book's aggregates recomputed. *)
Lemma post_book_reviews_consistent regex_i user id body db :
  status (fst (post_book_reviews regex_i user id body db)) = 201 ->
  let db' := snd (post_book_reviews regex_i user id body db) in
  exists i b', id = Some i
               /\ findById regex_i BookModel i db' = Some b'
               /\ consistent db' b'.
Proof.
  unfold post_book_reviews, try_catch.
  destruct (check_review body); [|discriminate]. simpl.
  unfold bind, cast_id, query.
  destruct id as [i|]; [|discriminate]. simpl.
  destruct (findById _ _ _ _) as [b|] eqn:Eb; [|discriminate].
  destruct (findOne _ _ _ _); [discriminate|].
  unfold reviewSchema.save_new.
  destruct (reviewSchema.validate _) eqn:Ev; [|discriminate].
  unfold bind, query, reviewSchema.insert.
  destruct (reviewSchema.pair_taken _ _ db) eqn:Ep; [discriminate|].
  set (r := reviewSchema.document _ _ _) in *.
  set (db1 := mkDB _ _ _).
  destruct (reviewSchema.post_save regex_i r db1) as [[] db'| |] eqn:Es;
    [|now apply post_save_not_sent in Es|discriminate].
  intros _. simpl.
  destruct (post_save_consistent regex_i r db1 db' b Es Eb) as (b' & Hb' & Hc).
  exists i, b'. auto.
Qed.

(** An update answered with 200 leaves the aggregates of the review's book,
    if the store has it, recomputed. *)
Lemma put_review_consistent regex_i user i body db review b :
  findById regex_i ReviewModel i db = Some review ->
  findById regex_i BookModel (Review.book review) db = Some b ->
  status (fst (put_review regex_i user (Some i) body db)) = 200 ->
  let db' := snd (put_review regex_i user (Some i) body db) in
  exists b', findById regex_i BookModel (Review.book review) db' = Some b'
             /\ consistent db' b'.
Proof.
  intros Hf Hb. unfold put_review, try_catch.
  destruct (check_review_update body); [|discriminate]. simpl.
  unfold bind, cast_id, query, ret. rewrite Hf.
  destruct (negb _); [discriminate|].
  unfold reviewSchema.save.
  destruct (_ ++ _); [|discriminate].
  unfold bind, ret.
  set (this' := reviewSchema.set_fields _ _ review).
  set (db1 := mkDB _ _ _).
  destruct (reviewSchema.post_save regex_i this' db1) as [[] db'| |] eqn:Es;
    [|now apply post_save_not_sent in Es|discriminate].
  intros _. simpl.
  exact (post_save_consistent regex_i this' db1 db' b Es Hb).
Qed.

(** A deletion never writes to a book. *)
Lemma delete_review_books regex_i user id db :
  books (snd (delete_review regex_i user id db)) = books db.
Proof.
  destruct (delete_review_effect regex_i user id db) as [->|[i ->]]; reflexivity.
Qed.

(** C2: after bob deletes his review (rating 2) of "Dune", which alice also
    reviewed (rating 4), the request is answered with 200 and the book's one
    remaining rating is 4, yet the book still stores an average of 3 over 2
    reviews: [DELETE /reviews/:id] does not run the aggregator. *)
Theorem delete_review_keeps_aggregates :
  let out := delete_review contains_ci bob (Some 2%nat) store_two in
  status (fst out) = 200
  /\ bookSchema.ratings_of 0%nat (snd out) = [4]
  /\ ratings_in 0%nat (reviews (snd out)) = [4]
  /\ exists b average total,
       findById contains_ci BookModel 0%nat (snd out) = Some b
       /\ Book.averageRating b = Some average /\ (average == 3)%Q
       /\ Book.totalReviews b = Some total /\ (total == 2)%Q
       /\ ~ consistent (snd out) b.
Proof.
  cbv zeta.
  split; [vm_compute; reflexivity|]. split; [vm_compute; reflexivity|].
  split; [vm_compute; reflexivity|].
  exists dune_two, (30 # 10)%Q, (2 # 1)%Q.
  split; [vm_compute; reflexivity|].
  split; [reflexivity|]. split; [reflexivity|].
  split; [reflexivity|]. split; [reflexivity|].
  intros [Ht _]. vm_compute in Ht. discriminate.
Qed.


(** ** Adding a book *)

Lemma check_book_isbn year body s :
  check_book year body = [] -> BookData.isbn body = Some s ->
  isbn_pattern s = true.
Proof.
  unfold check_book. intros H Hs.
  do 5 (apply app_eq_nil in H as [_ H]).
  rewrite Hs in H. apply when_nil in H. now apply negb_false_iff.
Qed.

Lemma isbn_taken_In s b db :
  In b (books db) -> Book.isbn b = Some s ->
  bookSchema.isbn_taken (Some s) db = true.
Proof.
  intros Hin Hs. unfold bookSchema.isbn_taken. apply existsb_exists.
  exists b. split; auto. rewrite Hs. apply String.eqb_refl.
Qed.

(** C3 (amended): when a stored book has the ISBN of the body, [POST /books]
    stores nothing; a body that passes the request's validators is answered
    with 500 and the generic message, another with 400 and its validation
    errors. *)
Theorem duplicate_isbn_rejected currentYear (db : DB) (user : ObjectId)
  (body : BookData.t) (s : string) (b : Book.doc) :
  In b (books db) -> Book.isbn b = Some s -> BookData.isbn body = Some s ->
  snd (post_books currentYear user body db) = db
  /\ (check_book currentYear body = [] ->
      fst (post_books currentYear user body db)
      = mkResponse 500 (J_error "Server error while adding book"))
  /\ (check_book currentYear body <> [] ->
      fst (post_books currentYear user body db)
      = mkResponse 400 (J_errors (check_book currentYear body))).
Proof.
  intros Hin Hb Hs.
  assert (check_book currentYear body = [] ->
          post_books currentYear user body db
          = (mkResponse 500 (J_error "Server error while adding book"), db)) as H500.
  { intros Hc. pose proof (check_book_isbn _ _ _ Hc Hs) as Hp.
    unfold post_books, try_catch. rewrite Hc. simpl.
    unfold bind, bookSchema.save_new.
    destruct (bookSchema.validate _ _); [|reflexivity].
    destruct (bookSchema.id_taken _ db); [reflexivity|].
    cbn [Book.isbn bookSchema.document BookData.isbn bookData sanitize_book].
    rewrite Hs. simpl option_map. rewrite (trim_isbn _ Hp).
    now rewrite (isbn_taken_In s b db Hin Hb). }
  assert (check_book currentYear body <> [] ->
          post_books currentYear user body db
          = (mkResponse 400 (J_errors (check_book currentYear body)), db)) as H400.
  { intros Hc. unfold post_books, try_catch.
    destruct (check_book currentYear body); [congruence|reflexivity]. }
  split; [|split].
  - destruct (check_book currentYear body) eqn:Hc.
    + now rewrite H500.
    + rewrite H400; [reflexivity|discriminate].
  - intros Hc. now rewrite H500.
  - intros Hc. now rewrite H400.
Qed.

Lemma duplicate_isbn_rejected_witness :
  fst (post_books this_year carol dune_again library)
  = mkResponse 500 (J_error "Server error while adding book").
Proof.
  refine (proj1 (proj2 (duplicate_isbn_rejected this_year library carol dune_again
                          "0-441-17271-7" dune_ii _ eq_refl eq_refl)) eq_refl).
  left. reflexivity.
Defined.

(** C3, as stated, fails: the ISBN of "Dune II" is taken, the body is valid,
    and the answer is 500. *)
Lemma duplicate_isbn_is_500 :
  bookSchema.isbn_taken (BookData.isbn dune_again) library = true
  /\ check_book this_year dune_again = []
  /\ status (fst (post_books this_year carol dune_again library)) = 500
  /\ status (fst (post_books this_year carol dune_again library)) <> 400.
Proof. repeat split; try reflexivity. vm_compute. discriminate. Qed.

(** A body without the derived fields gives a book whose aggregates are 0. *)
Lemma post_books_defaults year user body db b :
  BookData.averageRating body = Absent -> BookData.totalReviews body = Absent ->
  created_book (fst (post_books year user body db)) = Some b ->
  Book.averageRating b = Some 0%Q /\ Book.totalReviews b = Some 0%Q.
Proof.
  intros Ha Ht. unfold post_books, try_catch.
  destruct (check_book year body); [|discriminate]. simpl.
  unfold bind, bookSchema.save_new.
  destruct (bookSchema.validate _ _); [|discriminate].
  destruct (bookSchema.id_taken _ db); [discriminate|].
  destruct (bookSchema.isbn_taken _ db); [discriminate|].
  cbn. intros [= <-]. cbn. now rewrite Ha, Ht.
Qed.

(** Whatever the body says, the book is added by the acting user. *)
Lemma post_books_addedBy year user body db b :
  created_book (fst (post_books year user body db)) = Some b ->
  Book.addedBy b = user.
Proof.
  unfold post_books, try_catch.
  destruct (check_book year body); [|discriminate]. simpl.
  unfold bind, bookSchema.save_new.
  destruct (bookSchema.validate _ _); [|discriminate].
  destruct (bookSchema.id_taken _ db); [discriminate|].
  destruct (bookSchema.isbn_taken _ db); [discriminate|].
  cbn. now intros [= <-].
Qed.

Lemma find_fresh id l b :
  Forall (fun x => Book._id x <> id) l -> Book._id b = id ->
  List.find (has_id id) (l ++ [b]) = Some b.
Proof.
  intros Hl Hb. induction Hl as [|x l Hx _ IH]; simpl.
  - unfold has_id. now rewrite Hb, Nat.eqb_refl.
  - unfold has_id at 1. destruct (Nat.eqb_spec (Book._id x) id); [contradiction|exact IH].
Qed.

Lemma id_taken_false id db :
  bookSchema.id_taken id db = false ->
  Forall (fun x => Book._id x <> id) (books db).
Proof.
  unfold bookSchema.id_taken. intros H. apply Forall_forall. intros x Hx E.
  assert (existsb (fun b => Nat.eqb (Book._id b) id) (books db) = true) as Ht.
  { apply existsb_exists. exists x. split; [exact Hx|]. now apply Nat.eqb_eq. }
  congruence.
Qed.

(** A book created from a body without the derived fields is shown with
    aggregates of 0. *)
Lemma post_books_then_get_book regex_i year user body db :
  BookData.averageRating body = Absent -> BookData.totalReviews body = Absent ->
  status (fst (post_books year user body db)) = 201 ->
  exists b,
    created_book (fst (post_books year user body db)) = Some b
    /\ detail_book (fst (get_book regex_i (Some (Book._id b)) Undefined Undefined
                           (snd (post_books year user body db)))) = Some b
    /\ Book.averageRating b = Some 0%Q /\ Book.totalReviews b = Some 0%Q.
Proof.
  intros Ha Ht. unfold post_books, try_catch.
  destruct (check_book year body); [|discriminate]. simpl.
  unfold bind, bookSchema.save_new.
  destruct (bookSchema.validate _ _); [|discriminate].
  destruct (bookSchema.id_taken _ db) eqn:Eid; [discriminate|].
  destruct (bookSchema.isbn_taken _ db); [discriminate|].
  intros _. cbn [snd fst ret created_book json].
  set (b := bookSchema.document _ _ _) in *.
  exists b. split; [reflexivity|]. split.
  - unfold get_book, try_catch, bind, cast_id, query, ret.
    rewrite findById_book. cbn [books].
    rewrite (find_fresh (Book._id b) (books db) b (id_taken_false _ _ Eid) eq_refl).
    reflexivity.
  - subst b. cbn. now rewrite Ha, Ht.
Qed.

(** C4: a body that passes every validation and names [averageRating] 5 and
    [totalReviews] 100 is answered with 201, and the detail of the created
    book shows an average of 5 over 100 reviews. *)
Theorem post_books_takes_ratings_from_body :
  check_book this_year rated_book = []
  /\ bookSchema.validate this_year (bookData (sanitize_book rated_book) carol) = []
  /\ status (fst (post_books this_year carol rated_book empty_db)) = 201
  /\ exists b,
       detail_book
         (fst (get_book contains_ci (Some 0%nat) Undefined Undefined
                 (snd (post_books this_year carol rated_book empty_db))))
       = Some b
       /\ Book.averageRating b = Some 5%Q /\ Book.totalReviews b = Some 100%Q.
Proof.
  split; [reflexivity|]. split; [reflexivity|]. split; [reflexivity|].
  eexists. split; [reflexivity|]. split; reflexivity.
Qed.

(** ** Search *)

(** No review answers for a title or an author, so the search filter selects
    nothing from the collection of reviews. *)
Lemma search_matches_nothing regex_i q r :
  matches regex_i search_Book (searchFilter q) r = false.
Proof. reflexivity. Qed.

Lemma search_finds_nothing regex_i q db :
  find regex_i search_Book (searchFilter q) db = [].
Proof.
  unfold find. induction (collection search_Book db) as [|r l IH]; simpl; auto.
Qed.

(** Whatever the store holds, a search answers with no record at all. *)
Lemma get_search_empty regex_i q page lim db :
  check_paging page lim = [] ->
  notEmpty (trim (text_of q)) = true ->
  well_formed regex_i (searchFilter (trim (text_of q))) = true ->
  get_search regex_i q page lim db
  = (mkResponse 200
       (J_search (trim (text_of q)) []
          (pagination (page_of page) (limit_of lim) 0)), db).
Proof.
  intros Hp Hq Hf. rewrite get_search_ok by assumption. cbv zeta.
  unfold find_page, countDocuments. rewrite search_finds_nothing.
  rewrite limit_firstn, skip_skipn. simpl sort_createdAt_desc.
  now rewrite skipn_nil, firstn_nil.
Qed.

(** C1: of the three books of [library], "Dune II" and the one by
    "Duneworth" contain "dune"; [GET /search?q=dune] answers with no record. *)
Theorem search_dune_finds_no_book :
  map Book.title (spec_Search "dune" library) = ["Dune II"; "Sand"]
  /\ get_search contains_ci (Some "dune") Undefined Undefined library
     = (mkResponse 200 (J_search "dune" [] (mkPagination 1 0 0 false false)),
        library).
Proof. split; reflexivity. Qed.

(** C8, as stated, fails: the comment stored is not the comment given. *)
Lemma put_review_trims_comment :
  let provided := "  worth a second read  " in
  let out := put_review contains_ci alice (Some 1%nat) second_read store_two in
  status (fst out) = 200
  /\ option_map Review.comment (findById contains_ci ReviewModel 1%nat (snd out))
     = Some "worth a second read"
  /\ option_map Review.comment (findById contains_ci ReviewModel 1%nat (snd out))
     <> Some provided.
Proof. repeat split; try reflexivity. vm_compute. discriminate. Qed.

(** * Further properties of the routes and models *)

(** ** Listings: order, filter and pages *)

Section SortFacts.
Context {D : Type} (M : Model D).

Lemma insert_desc_perm x l : Permutation (insert_desc M x l) (x :: l).
Proof.
  induction l as [|y l IH]; simpl; [reflexivity|].
  destruct (created M y <? created M x)%nat; [reflexivity|].
  rewrite IH. apply perm_swap.
Qed.

Lemma sort_perm l : Permutation (sort_createdAt_desc M l) l.
Proof.
  induction l as [|x l IH]; simpl; [reflexivity|].
  rewrite insert_desc_perm. now constructor.
Qed.





End SortFacts.


Lemma matches_books_filter regex_i author genre b :
  matches regex_i BookModel
    (books_filter (option_map trim author) (option_map trim genre)) b
  = field_matches regex_i author (Book.author b)
    && field_matches regex_i genre (Book.genre b).
Proof.
  unfold books_filter, field_matches.
  destruct author as [a|], genre as [g|]; simpl;
    repeat match goal with |- context [notEmpty ?s] => destruct (notEmpty s) end;
    reflexivity.
Qed.

(** A filter of [GET /books] that the store refuses matches no book. *)
Lemma books_filter_refused regex_i author genre b :
  well_formed regex_i (books_filter author genre) = false ->
  matches regex_i BookModel (books_filter author genre) b = false.
Proof.
  unfold books_filter.
  destruct author as [a|], genre as [g|]; simpl;
    repeat match goal with |- context [notEmpty ?s] => destruct (notEmpty s) end;
    simpl; unfold regex_test;
    repeat match goal with |- context [regex_i ?s] => destruct (regex_i s) end;
    simpl; try discriminate; try reflexivity;
    intros _; now rewrite ?andb_false_r.
Qed.

Lemma find_refused regex_i author genre db :
  well_formed regex_i (books_filter author genre) = false ->
  find regex_i BookModel (books_filter author genre) db = [].
Proof.
  intros H. unfold find.
  induction (collection BookModel db) as [|b l IH]; [reflexivity|].
  cbn [filter]. now rewrite books_filter_refused.
Qed.

Lemma get_books_invalid regex_i page lim author genre db :
  check_paging page lim <> [] ->
  books_of (fst (get_books regex_i page lim author genre db)) = [].
Proof.
  intros H. unfold get_books, try_catch.
  destruct (check_paging page lim); [congruence|reflexivity].
Qed.

(** The books listed are a page of the matching books, also when the store
    refuses the filter: then none is listed, and none matches. *)
Lemma get_books_list regex_i page lim author genre db :
  check_paging page lim = [] ->
  books_of (fst (get_books regex_i page lim author genre db))
  = find_page regex_i BookModel
      (books_filter (option_map trim author) (option_map trim genre))
      ((page_of page - 1) * limit_of lim) (limit_of lim) db.
Proof.
  intros H.
  destruct (well_formed regex_i
              (books_filter (option_map trim author) (option_map trim genre)))
    eqn:Hf.
  - now rewrite get_books_ok.
  - rewrite get_books_refused by assumption. unfold find_page.
    rewrite find_refused by assumption. rewrite limit_firstn, skip_skipn. simpl.
    now rewrite skipn_nil, firstn_nil.
Qed.

(** X1: every book [GET /books] lists is a stored book whose author and genre
    match the query values given, both when both are given. *)
Theorem get_books_lists_matches regex_i (db : DB) (page lim : IntField)
  (author genre : option string) (b : Book.doc) :
  In b (books_of (fst (get_books regex_i page lim author genre db))) ->
  In b (books db)
  /\ field_matches regex_i author (Book.author b) = true
  /\ field_matches regex_i genre (Book.genre b) = true.
Proof.
  destruct (check_paging page lim) eqn:Hc.
  - rewrite get_books_list by assumption. intros H.
    apply find_page_In in H as [Hin Hm].
    rewrite matches_books_filter in Hm. apply andb_prop in Hm. tauto.
  - rewrite get_books_invalid by congruence. intros [].
Qed.

Lemma get_books_lists_matches_witness :
  field_matches contains_ci (Some "herb") (Book.author dune_two) = true.
Proof.
  refine (proj1 (proj2 (get_books_lists_matches contains_ci store_two Undefined
                         Undefined (Some "herb") None dune_two _))).
  vm_compute. left. reflexivity.
Defined.





(** X4: an answer of [GET /books/:id] with 200 shows the stored book with
    that identifier, the one a query by it finds, and lists stored reviews
    of that book only. *)
Theorem get_book_reviews regex_i (db : DB) (i : ObjectId) (page lim : IntField) :
  status (fst (get_book regex_i (Some i) page lim db)) = 200 ->
  exists b,
    detail_book (fst (get_book regex_i (Some i) page lim db)) = Some b
    /\ findById regex_i BookModel i db = Some b
    /\ In b (books db) /\ Book._id b = i
    /\ forall r,
         In r (reviews_of (fst (get_book regex_i (Some i) page lim db))) ->
         In r (reviews db) /\ Review.book r = i.
Proof.
  unfold get_book, try_catch, bind, cast_id, query, ret, throw, send.
  destruct (findById regex_i BookModel i db) as [b|] eqn:Hb; [|discriminate].
  destruct (_ <? 0); [discriminate|]. cbn. intros _.
  rewrite findById_book in Hb. pose proof (find_has_id _ _ _ Hb) as Hid.
  pose proof (find_some _ _ Hb) as [Hin _].
  exists b. repeat split; auto.
  - apply find_page_In in H as [H _]. exact H.
  - apply find_page_In in H as [_ Hm]. cbn in Hm. rewrite Hid in Hm.
    now apply Nat.eqb_eq.
Qed.

Lemma get_book_reviews_witness :
  exists b,
    detail_book (fst (get_book contains_ci (Some 0%nat) Undefined Undefined
                        store_dune)) = Some b
    /\ findById contains_ci BookModel 0%nat store_dune = Some b
    /\ In b (books store_dune) /\ Book._id b = 0%nat
    /\ forall r,
         In r (reviews_of (fst (get_book contains_ci (Some 0%nat) Undefined
                                  Undefined store_dune))) ->
         In r (reviews store_dune) /\ Review.book r = 0%nat.
Proof.
  apply (get_book_reviews contains_ci store_dune 0%nat Undefined Undefined).
  reflexivity.
Defined.

(** ** The writes of the routes, exactly *)

Lemma update_ratings_absent k a t l :
  List.find (has_id k) l = None -> bookSchema.update_ratings k a t l = l.
Proof.
  induction l as [|b l IH]; simpl; auto. unfold has_id at 1.
  destruct (Nat.eqb (Book._id b) k); [discriminate|].
  intros H. now rewrite IH.
Qed.

(** The hook, when it does not throw, wrote the aggregates of the review's
    book. *)
Lemma post_save_next regex_i this db db' :
  reviewSchema.post_save regex_i this db = Next tt db' ->
  aggregates_written (Review.book this) db db'.
Proof.
  unfold reviewSchema.post_save, bind, query, ret, aggregates_written.
  rewrite findById_book.
  destruct (List.find _ _) as [b|] eqn:Hb.
  - rewrite updateAverageRating_unfold. cbv zeta. rewrite ratings_of_in.
    unfold bookSchema.save_ratings. destruct (_ ++ _); [|discriminate].
    intros [= <-]. cbn. now rewrite (find_has_id _ _ _ Hb).
  - intros [= <-]. rewrite update_ratings_absent by assumption.
    now destruct db.
Qed.

(** The hook either wrote the aggregates of the review's book or left the
    store as it was. *)
Lemma post_save_outcome regex_i this db :
  outcome_db (reviewSchema.post_save regex_i this db) = db
  \/ aggregates_written (Review.book this) db
       (outcome_db (reviewSchema.post_save regex_i this db)).
Proof.
  destruct (reviewSchema.post_save regex_i this db) as [[] db'|r db'|e db'] eqn:E.
  - right. now apply post_save_next in E.
  - now apply post_save_not_sent in E.
  - left. revert E. unfold reviewSchema.post_save, bind, query, ret.
    destruct (findById _ _ _ _); [|discriminate].
    rewrite updateAverageRating_unfold. cbv zeta.
    unfold bookSchema.save_ratings. destruct (_ ++ _); [discriminate|].
    now intros [= _ <-].
Qed.

(** On a store whose ratings are in range the hook does write. *)
Lemma post_save_writes regex_i this db :
  ratings_in_range db ->
  aggregates_written (Review.book this) db
    (outcome_db (reviewSchema.post_save regex_i this db)).
Proof.
  intros H. destruct (post_save_ok regex_i this db H) as (db' & E & _).
  rewrite E. now apply post_save_next in E.
Qed.

Lemma post_books_step year user body db :
  let db' := snd (post_books year user body db) in
  db' = db \/ book_appended body db db'.
Proof.
  unfold post_books, try_catch.
  destruct (check_book year body); [|now left]. simpl.
  unfold bind, bookSchema.save_new.
  destruct (bookSchema.validate year _) eqn:Ev; [|now left].
  destruct (bookSchema.id_taken _ db) eqn:Eid; [now left|].
  destruct (bookSchema.isbn_taken _ db) eqn:Ei; [now left|].
  right.
  exists (bookSchema.document (bookData (sanitize_book body) user)
            (clock db) (clock db)).
  split; [reflexivity|]. split; [exact Eid|].
  split; [exact Ei|]. cbn. now intros -> ->.
Qed.

Lemma find_In_ids k l b :
  List.find (has_id k) l = Some b -> In k (map Book._id l).
Proof.
  intros H. pose proof (find_has_id _ _ _ H) as <-.
  apply find_some in H as [H _]. now apply in_map.
Qed.

Lemma post_book_reviews_step regex_i user id body db :
  let db' := snd (post_book_reviews regex_i user id body db) in
  db' = db \/ review_appended regex_i db db'.
Proof.
  unfold post_book_reviews, try_catch.
  destruct (check_review body); [|now left]. simpl.
  unfold bind, cast_id, query.
  destruct id as [i|]; [|now left]. simpl.
  destruct (findById _ _ _ _) as [b|] eqn:Hb; [|now left].
  destruct (findOne _ _ _ _); [now left|].
  unfold reviewSchema.save_new.
  destruct (reviewSchema.validate _) eqn:Ev; [|now left].
  unfold bind, query, reviewSchema.insert.
  destruct (reviewSchema.pair_taken _ _ db) eqn:Ep; [now left|].
  right.
  set (r := reviewSchema.document _ _ _) in *.
  set (db1 := mkDB _ _ _).
  exists r. split; [reflexivity|].
  split. { rewrite findById_book in Hb.
          change (In i (map Book._id (books db))). exact (find_In_ids _ _ _ Hb). }
  split; [eapply validate_review_rating, Ev|].
  subst db1. destruct (reviewSchema.post_save regex_i r _) as [[] ?| |]; reflexivity.
Qed.

Lemma put_review_step_at regex_i user i body db :
  let db' := snd (put_review regex_i user (Some i) body db) in
  db' = db \/ review_rewritten_at regex_i i db db'.
Proof.
  unfold put_review, try_catch.
  destruct (check_review_update body); [|now left]. simpl.
  unfold bind, cast_id, query. simpl.
  destruct (findById _ _ _ _) as [review|] eqn:Hf; [|now left].
  destruct (negb _); [now left|].
  unfold reviewSchema.save.
  destruct (_ ++ _) eqn:Ev; [|now left].
  unfold bind, ret.
  set (rt := assigned_rating _) in *. set (cm := assigned_comment _) in *.
  set (db1 := mkDB _ _ _).
  right. rewrite findById_review in Hf.
  assert (Review._id review = i) as Hi
    by (apply find_some in Hf as [_ Hf]; now apply Nat.eqb_eq).
  exists review, rt, cm. split; [exact Hf|].
  split. { apply app_eq_nil in Ev as [Ev _].
           destruct rt; [now apply check_rating_ok|exact I]. }
  subst db1. rewrite Hi.
  destruct (reviewSchema.post_save regex_i _ _); reflexivity.
Qed.

Lemma put_review_step regex_i user id body db :
  let db' := snd (put_review regex_i user id body db) in
  db' = db \/ review_rewritten regex_i db db'.
Proof.
  destruct id as [i|].
  - destruct (put_review_step_at regex_i user i body db) as [H|H]; [now left|].
    right. now exists i.
  - left. unfold put_review, try_catch.
    destruct (check_review_update body); reflexivity.
Qed.

(** ** Identifiers and ISBNs in the stores the server reaches *)

Lemma update_ratings_ids k a t l :
  map Book._id (bookSchema.update_ratings k a t l) = map Book._id l.
Proof.
  induction l as [|b l IH]; simpl; auto.
  destruct (Nat.eqb (Book._id b) k); simpl; [reflexivity|now rewrite IH].
Qed.

Lemma update_ratings_isbns k a t l :
  isbns (bookSchema.update_ratings k a t l) = isbns l.
Proof.
  induction l as [|b l IH]; simpl; auto.
  destruct (Nat.eqb (Book._id b) k); simpl; [reflexivity|now rewrite IH].
Qed.

Lemma update_fields_ids i rt cm l :
  map Review._id (reviewSchema.update_fields i rt cm l) = map Review._id l.
Proof.
  induction l as [|r l IH]; simpl; auto.
  destruct (Nat.eqb (Review._id r) i); simpl; [reflexivity|now rewrite IH].
Qed.

Lemma update_fields_books i rt cm l :
  map Review.book (reviewSchema.update_fields i rt cm l) = map Review.book l.
Proof.
  induction l as [|r l IH]; simpl; auto.
  destruct (Nat.eqb (Review._id r) i); simpl; [reflexivity|now rewrite IH].
Qed.

Lemma remove_id_NoDup {A} (f : Review.doc -> A) i l :
  NoDup (map f l) -> NoDup (map f (reviewSchema.remove_id i l)).
Proof.
  induction l as [|x l IH]; simpl; auto.
  intros H. inversion H as [|? ? Hx Hl]; subst.
  destruct (Nat.eqb (Review._id x) i); auto.
  simpl. constructor; auto.
  intros Hin. apply Hx. apply in_map_iff in Hin as (r & Hr & Hin).
  apply in_map_iff. exists r. split; auto. eapply remove_id_In, Hin.
Qed.

Lemma remove_id_Forall (P : Review.doc -> Prop) i l :
  Forall P l -> Forall P (reviewSchema.remove_id i l).
Proof.
  rewrite !Forall_forall. intros H r Hr. eapply H, remove_id_In, Hr.
Qed.

(** The identifiers in use, as lists. *)
Lemma ids_fresh_maps db :
  ids_fresh db <->
  Forall (fun n => (n < clock db)%nat) (map Book._id (books db))
  /\ Forall (fun n => (n < clock db)%nat) (map Review._id (reviews db))
  /\ Forall (fun n => In n (map Book._id (books db))) (map Review.book (reviews db))
  /\ NoDup (map Book._id (books db))
  /\ NoDup (map Review._id (reviews db)).
Proof. unfold ids_fresh. now rewrite !Forall_map. Qed.

Lemma Forall_lt_S (c : nat) l :
  Forall (fun n => (n < c)%nat) l -> Forall (fun n => (n < S c)%nat) l.
Proof. apply Forall_impl. intros; lia. Qed.

Lemma Forall_lt_max (c i : nat) l :
  Forall (fun n => (n < c)%nat) l ->
  Forall (fun n => (n < S (Nat.max c i))%nat) l.
Proof. apply Forall_impl. intros; lia. Qed.

Lemma NoDup_snoc_new (i : nat) l : ~ In i l -> NoDup l -> NoDup (l ++ [i]).
Proof.
  intros Hi Hn. apply NoDup_app; auto.
  - constructor; [intros []|constructor].
  - intros a Ha [<-|[]]. contradiction.
Qed.

Lemma id_taken_ids id db :
  bookSchema.id_taken id db = false -> ~ In id (map Book._id (books db)).
Proof.
  intros H Hin. apply in_map_iff in Hin as (b & Hb & Hin).
  pose proof (id_taken_false _ _ H) as Hf. rewrite Forall_forall in Hf.
  exact (Hf b Hin Hb).
Qed.

Lemma NoDup_snoc_fresh (c : nat) l :
  Forall (fun n => (n < c)%nat) l -> NoDup l -> NoDup (l ++ [c]).
Proof.
  intros Hl Hn. apply NoDup_app; auto.
  - constructor; [intros []|constructor].
  - intros a Ha [<-|[]]. rewrite Forall_forall in Hl. specialize (Hl _ Ha). lia.
Qed.

Lemma aggregates_written_fresh k db db' :
  aggregates_written k db db' -> ids_fresh db -> ids_fresh db'.
Proof.
  unfold aggregates_written. intros -> H. apply ids_fresh_maps in H.
  apply ids_fresh_maps. cbn. now rewrite update_ratings_ids.
Qed.

Lemma aggregates_written_isbns k db db' :
  aggregates_written k db db' -> unique_isbns db -> unique_isbns db'.
Proof.
  unfold aggregates_written, unique_isbns. intros -> H. cbn.
  now rewrite update_ratings_isbns.
Qed.

Lemma isbn_taken_isbns s db :
  bookSchema.isbn_taken (Some s) db = true <-> In s (isbns (books db)).
Proof.
  unfold bookSchema.isbn_taken, isbns. rewrite existsb_exists, in_flat_map.
  split; intros (b & Hb & H); exists b; split; auto.
  - destruct (Book.isbn b) as [s'|]; [|discriminate].
    apply String.eqb_eq in H. subst. now left.
  - destruct (Book.isbn b) as [s'|]; [|destruct H].
    destruct H as [->|[]]. apply String.eqb_refl.
Qed.

Lemma isbns_app l1 l2 : isbns (l1 ++ l2) = isbns l1 ++ isbns l2.
Proof. unfold isbns. now rewrite flat_map_app. Qed.

Lemma serve_fresh regex_i year rq db :
  ids_fresh db -> ids_fresh (snd (serve regex_i year rq db)).
Proof.
  intros H. destruct rq; simpl.
  - destruct (post_books_step year user body db) as [->|(b & -> & Hid & _)]; auto.
    apply ids_fresh_maps in H as (Hb & Hr & Hrb & Nb & Nr).
    apply ids_fresh_maps. cbn. rewrite map_app. cbn.
    repeat split; auto using Forall_lt_max.
    + apply Forall_app. split; [now apply Forall_lt_max|].
      constructor; [lia|constructor].
    + eapply Forall_impl; [|exact Hrb]. intros n Hn. apply in_or_app. now left.
    + apply NoDup_snoc_new; [|exact Nb]. now apply id_taken_ids.
  - now rewrite get_books_effect.
  - now rewrite get_book_effect.
  - destruct (post_book_reviews_step regex_i user id body db)
      as [->|(r & Hid & Hbk & _ & ->)]; auto.
    set (db1 := mkDB _ _ _).
    assert (ids_fresh db1) as H1.
    { apply ids_fresh_maps in H as (Hb & Hr & Hrb & Nb & Nr).
      apply ids_fresh_maps. subst db1. cbn. rewrite !map_app. cbn. rewrite Hid.
      repeat split; auto using Forall_lt_S, NoDup_snoc_fresh.
      - apply Forall_app. split; [now apply Forall_lt_S|]. repeat constructor.
      - apply Forall_app. split; [exact Hrb|].
        constructor; [exact Hbk|constructor]. }
    destruct (post_save_outcome regex_i r db1) as [->|Hw]; auto.
    eapply aggregates_written_fresh; eauto.
  - destruct (put_review_step regex_i user id body db)
      as [->|(i & review & rt & cm & _ & _ & ->)]; auto.
    set (db1 := mkDB _ _ _).
    assert (ids_fresh db1) as H1.
    { apply ids_fresh_maps in H. apply ids_fresh_maps. subst db1. cbn.
      now rewrite update_fields_ids, update_fields_books. }
    destruct (post_save_outcome regex_i (reviewSchema.set_fields rt cm review) db1)
      as [->|Hw]; auto.
    eapply aggregates_written_fresh; eauto.
  - destruct (delete_review_effect regex_i user id db) as [->|[i ->]]; auto.
    destruct H as (Hb & Hr & Hrb & Nb & Nr).
    repeat split; cbn; auto using remove_id_Forall, remove_id_NoDup.
  - now rewrite get_search_effect.
Qed.

Lemma serve_isbns regex_i year rq db :
  unique_isbns db -> unique_isbns (snd (serve regex_i year rq db)).
Proof.
  intros H. destruct rq; simpl.
  - destruct (post_books_step year user body db) as [->|(b & -> & _ & Ht & _)]; auto.
    unfold unique_isbns in *. cbn. rewrite isbns_app.
    apply NoDup_app; auto.
    + unfold isbns. cbn. destruct (Book.isbn b); repeat constructor. intros [].
    + intros s Hs Hs'. unfold isbns in Hs'. cbn in Hs'.
      destruct (Book.isbn b) as [s'|]; [|destruct Hs'].
      destruct Hs' as [->|[]]. apply isbn_taken_isbns in Hs. congruence.
  - now rewrite get_books_effect.
  - now rewrite get_book_effect.
  - destruct (post_book_reviews_step regex_i user id body db)
      as [->|(r & _ & _ & _ & ->)]; auto.
    set (db1 := mkDB _ _ _).
    destruct (post_save_outcome regex_i r db1) as [->|Hw]; auto.
    eapply aggregates_written_isbns; eauto.
  - destruct (put_review_step regex_i user id body db)
      as [->|(i & review & rt & cm & _ & _ & ->)]; auto.
    set (db1 := mkDB _ _ _).
    destruct (post_save_outcome regex_i (reviewSchema.set_fields rt cm review) db1)
      as [->|Hw]; auto.
    eapply aggregates_written_isbns; eauto.
  - destruct (delete_review_effect regex_i user id db) as [->|[i ->]]; auto.
  - now rewrite get_search_effect.
Qed.

Lemma reachable_fresh regex_i year db :
  reachable regex_i year db -> ids_fresh db.
Proof.
  induction 1 as [|db rq _ IH]; [|now apply serve_fresh].
  repeat split; constructor.
Qed.

Lemma reachable_isbns regex_i year db :
  reachable regex_i year db -> unique_isbns db.
Proof.
  induction 1 as [|db rq _ IH]; [constructor|now apply serve_isbns].
Qed.

Lemma NoDup_map_eq {A B} (f : A -> B) l x y :
  NoDup (map f l) -> In x l -> In y l -> f x = f y -> x = y.
Proof.
  induction l as [|a l IH]; simpl; [tauto|].
  intros H. inversion H as [|? ? Ha Hl]; subst.
  intros [->|Hx] [->|Hy] E; auto.
  - exfalso. apply Ha. rewrite E. now apply in_map.
  - exfalso. apply Ha. rewrite <- E. now apply in_map.
Qed.

Lemma NoDup_isbns_eq l b1 b2 s :
  NoDup (isbns l) -> In b1 l -> In b2 l ->
  Book.isbn b1 = Some s -> Book.isbn b2 = Some s -> b1 = b2.
Proof.
  induction l as [|a l IH]; simpl; [tauto|].
  intros H H1 H2 E1 E2. unfold isbns in H. cbn in H. fold (isbns l) in H.
  assert (forall b, In b l -> Book.isbn b = Some s -> In s (isbns l)) as K.
  { intros b Hb Eb. unfold isbns. apply in_flat_map. exists b.
    rewrite Eb. split; [auto|now left]. }
  destruct H1 as [->|H1], H2 as [->|H2]; auto.
  - exfalso. rewrite E1 in H. inversion H as [|? ? Hs _]; subst.
    apply Hs. eauto.
  - exfalso. rewrite E2 in H. inversion H as [|? ? Hs _]; subst.
    apply Hs. eauto.
  - apply IH; auto. now apply NoDup_app_remove_l in H.
Qed.

(** X5: in every store the server reaches, two stored books with the same
    ISBN are one book. *)
Theorem reachable_isbn_unique regex_i currentYear (db : DB)
  (b1 b2 : Book.doc) (s : string) :
  reachable regex_i currentYear db ->
  In b1 (books db) -> In b2 (books db) ->
  Book.isbn b1 = Some s -> Book.isbn b2 = Some s -> b1 = b2.
Proof.
  intros H. apply NoDup_isbns_eq. now apply reachable_isbns in H.
Qed.

Lemma reachable_library : reachable contains_ci this_year library.
Proof.
  exact (reach_serve _ _ _ (AddBook carol (new_book "Atlas" "Rand" None))
           (reach_serve _ _ _ (AddBook carol (new_book "Sand" "Duneworth" None))
              (reach_serve _ _ _
                 (AddBook carol (new_book "Dune II" "Herbert" (Some "0-441-17271-7")))
                 (reach_empty _ _)))).
Qed.

Lemma reachable_isbn_unique_witness :
  dune_ii = hd dune_two (books library).
Proof.
  refine (reachable_isbn_unique contains_ci this_year library dune_ii
            (hd dune_two (books library)) "0-441-17271-7" reachable_library
            _ _ _ _); vm_compute; auto.
Defined.

(** X6: in every store the server reaches, two stored reviews of the same book
    by the same user are one review. *)
Theorem reachable_one_review_per_pair regex_i currentYear (db : DB)
  (r1 r2 : Review.doc) :
  reachable regex_i currentYear db ->
  In r1 (reviews db) -> In r2 (reviews db) ->
  Review.book r1 = Review.book r2 -> Review.user r1 = Review.user r2 ->
  r1 = r2.
Proof.
  intros H H1 H2 Eb Eu.
  apply (NoDup_map_eq pair (reviews db)); auto.
  - exact (reachable_unique _ _ _ H).
  - unfold pair. congruence.
Qed.

Lemma reachable_one_review_per_pair_witness :
  alice_review = hd alice_review (reviews store_two).
Proof.
  refine (reachable_one_review_per_pair contains_ci this_year store_two
            alice_review (hd alice_review (reviews store_two))
            reachable_store_two _ _ _ _); vm_compute; auto.
Defined.

(** ** The aggregates stay in step with the reviews *)

Lemma consistent_reviews db db' b :
  ratings_in (Book._id b) (reviews db') = ratings_in (Book._id b) (reviews db) ->
  consistent db b -> consistent db' b.
Proof. unfold consistent. now intros ->. Qed.

Lemma ratings_in_snoc j l r :
  Review.book r <> j -> ratings_in j (l ++ [r]) = ratings_in j l.
Proof.
  intros H. rewrite ratings_in_app. simpl.
  destruct (Nat.eqb_spec (Review.book r) j); [contradiction|].
  now rewrite app_nil_r.
Qed.

Lemma ratings_in_update_fields j i rt cm l review :
  List.find (is_review i) l = Some review -> Review.book review <> j ->
  ratings_in j (reviewSchema.update_fields i rt cm l) = ratings_in j l.
Proof.
  intros Hf Hj. induction l as [|r l IH]; simpl in *; auto.
  unfold is_review in Hf at 1.
  destruct (Nat.eqb (Review._id r) i).
  - injection Hf as ->. cbn.
    destruct (Nat.eqb_spec (Review.book review) j); [contradiction|reflexivity].
  - cbn. destruct (Nat.eqb (Review.book r) j); cbn; now rewrite IH.
Qed.

Lemma ratings_in_none j l :
  Forall (fun r => Review.book r <> j) l -> ratings_in j l = [].
Proof.
  induction 1 as [|r l Hr _ IH]; [reflexivity|]. cbn.
  destruct (Nat.eqb_spec (Review.book r) j); [contradiction|exact IH].
Qed.

Lemma recomputing_numeric rq : recomputing rq -> numeric rq.
Proof.
  destruct rq; simpl; auto. intros [Ha Ht]. split; congruence.
Qed.

Lemma Forall_update_ratings (Q : Book.doc -> Prop) k a t l :
  NoDup (map Book._id l) ->
  (forall b, In b l -> Book._id b <> k -> Q b) ->
  (forall b, In b l -> Book._id b = k -> Q (bookSchema.set_ratings a t b)) ->
  Forall Q (bookSchema.update_ratings k a t l).
Proof.
  induction l as [|b l IH]; simpl; [constructor|].
  intros Hn H1 H2. inversion Hn as [|? ? Hb Hl]; subst.
  destruct (Nat.eqb_spec (Book._id b) k) as [E|E].
  - constructor; [now apply H2; auto|].
    apply Forall_forall. intros x Hx. apply H1; auto.
    intros Ex. apply Hb. rewrite E, <- Ex. now apply in_map.
  - constructor; [now apply H1; auto|]. apply IH; auto.
Qed.

(** Writing the aggregates of book [k] puts every book in step, if every
    other book was. *)
Lemma aggregates_written_in_step k db db' :
  aggregates_written k db db' ->
  NoDup (map Book._id (books db)) ->
  (forall b, In b (books db) -> Book._id b <> k -> consistent db b) ->
  Forall (consistent db') (books db').
Proof.
  unfold aggregates_written. intros -> Hn H. cbn [books].
  apply Forall_update_ratings; [exact Hn| |].
  - intros b Hb Hk. eapply consistent_reviews; [|now apply H]. reflexivity.
  - intros b Hb <-. apply recomputed_consistent; reflexivity.
Qed.

Lemma serve_in_step regex_i year rq db :
  recomputing rq -> in_step db -> in_step (snd (serve regex_i year rq db)).
Proof.
  intros Hrq (Hb & Hf & Hc).
  split; [now apply serve_bounds; [apply recomputing_numeric|]|].
  split; [now apply serve_fresh|].
  pose proof Hf as (_ & _ & Hrb & Nb & _).
  destruct rq; simpl in *.
  - destruct Hrq as [Ha Ht].
    destruct (post_books_step year user body db)
      as [->|(b & -> & Hid & _ & H0)]; auto.
    destruct (H0 Ha Ht) as [Ea Et]. cbn [books]. apply Forall_app. split.
    + eapply Forall_impl; [|exact Hc]. intros x. now apply consistent_reviews.
    + constructor; [|constructor]. unfold consistent.
      cbn [reviews]. rewrite ratings_in_none.
      * rewrite Ea, Et. split; reflexivity.
      * eapply Forall_impl; [|exact Hrb]. cbn. intros r Hr E.
        apply (id_taken_ids _ _ Hid). now rewrite <- E.
  - now rewrite get_books_effect.
  - now rewrite get_book_effect.
  - destruct (post_book_reviews_step regex_i user id body db)
      as [->|(r & Hid & _ & Hok & ->)]; auto.
    set (db1 := mkDB _ _ _).
    eapply (aggregates_written_in_step (Review.book r) db1).
    + apply post_save_writes. subst db1. unfold ratings_in_range. cbn.
      apply Forall_app. split.
      * apply Hb.
      * constructor; [exact Hok|constructor].
    + exact Nb.
    + intros b Hin Hk. rewrite Forall_forall in Hc.
      eapply consistent_reviews; [|now apply Hc]. subst db1. cbn.
      apply ratings_in_snoc. congruence.
  - destruct (put_review_step regex_i user id body db)
      as [->|(i & review & rt & cm & Hfind & Hrt & ->)]; auto.
    set (db1 := mkDB _ _ _).
    eapply (aggregates_written_in_step (Review.book review) db1).
    + apply (post_save_writes regex_i (reviewSchema.set_fields rt cm review)).
      subst db1. unfold ratings_in_range. cbn.
      apply update_fields_ratings; [exact Hrt|apply Hb].
    + exact Nb.
    + intros b Hin Hk. rewrite Forall_forall in Hc.
      eapply consistent_reviews; [|now apply Hc]. subst db1. cbn.
      eapply ratings_in_update_fields; eauto.
  - destruct Hrq.
  - now rewrite get_search_effect.
Qed.

Lemma in_step_empty : in_step empty_db.
Proof.
  split; [apply bounds_empty|]. split; [|constructor].
  repeat split; constructor.
Qed.

(** X7: as long as no review is deleted and no new book names the derived
    fields in its body, every stored book's [averageRating] and
    [totalReviews] agree with the reviews that reference it. *)
Theorem recomputing_keeps_in_step regex_i currentYear (db : DB) (b : Book.doc) :
  reachable_by regex_i currentYear recomputing db ->
  In b (books db) -> consistent db b.
Proof.
  intros H. assert (in_step db) as (_ & _ & Hc).
  { induction H as [|db rq Hrq _ IH]; [apply in_step_empty|].
    now apply serve_in_step. }
  rewrite Forall_forall in Hc. apply Hc.
Qed.

Lemma recomputing_store_two :
  reachable_by contains_ci this_year recomputing store_two.
Proof.
  change (reachable_by contains_ci this_year recomputing
            (snd (serve contains_ci this_year
                    (SubmitReview bob (Some 0%nat)
                       (ReviewBody.mk (Int 2) (Some "not my cup of tea")))
                    store_one))).
  apply reach_by_serve; [exact I|].
  change (reachable_by contains_ci this_year recomputing
            (snd (serve contains_ci this_year
                    (SubmitReview alice (Some 0%nat)
                       (ReviewBody.mk (Int 4) (Some "a fine long read")))
                    store_dune))).
  apply reach_by_serve; [exact I|].
  change (reachable_by contains_ci this_year recomputing
            (snd (serve contains_ci this_year (AddBook carol dune) empty_db))).
  apply reach_by_serve; [split; reflexivity|]. constructor.
Qed.

Lemma recomputing_keeps_in_step_witness : consistent store_two dune_two.
Proof.
  apply (recomputing_keeps_in_step contains_ci this_year store_two dune_two
           recomputing_store_two).
  vm_compute. left. reflexivity.
Defined.

(** ** Reads, and documents that are not there *)

(** X8: the three [GET] routes never write to the store. *)
Theorem get_routes_read_only regex_i (db : DB) (page lim : IntField)
  (author genre q : option string) (id : option ObjectId) :
  snd (get_books regex_i page lim author genre db) = db
  /\ snd (get_book regex_i id page lim db) = db
  /\ snd (get_search regex_i q page lim db) = db.
Proof.
  split; [apply get_books_effect|]. split; [apply get_book_effect|].
  apply get_search_effect.
Qed.

(** X9: a request for a book or a review the store does not have is answered
    with 404 and changes nothing (for the routes with a body, once the body
    passed the validators). *)
Theorem missing_document_is_404 regex_i (db : DB) (user i : ObjectId)
  (page lim : IntField) (body : ReviewBody.t) :
  (findById regex_i BookModel i db = None ->
   get_book regex_i (Some i) page lim db
   = (mkResponse 404 (J_error "Book not found"), db)
   /\ (check_review body = [] ->
       post_book_reviews regex_i user (Some i) body db
       = (mkResponse 404 (J_error "Book not found"), db)))
  /\ (findById regex_i ReviewModel i db = None ->
      delete_review regex_i user (Some i) db
      = (mkResponse 404 (J_error "Review not found"), db)
      /\ (check_review_update body = [] ->
          put_review regex_i user (Some i) body db
          = (mkResponse 404 (J_error "Review not found"), db))).
Proof.
  split; intros Hf; split.
  - unfold get_book, try_catch, bind, cast_id, query, ret. now rewrite Hf.
  - intros Hc. unfold post_book_reviews, try_catch. rewrite Hc. simpl.
    unfold bind, cast_id, query, ret. now rewrite Hf.
  - unfold delete_review, try_catch, bind, cast_id, query, ret. now rewrite Hf.
  - intros Hc. unfold put_review, try_catch. rewrite Hc. simpl.
    unfold bind, cast_id, query, ret. now rewrite Hf.
Qed.

Lemma missing_document_is_404_witness :
  delete_review contains_ci alice (Some 9%nat) store_two
  = (mkResponse 404 (J_error "Review not found"), store_two).
Proof.
  exact (proj1 (proj2 (missing_document_is_404 contains_ci store_two alice 9%nat
                         Undefined Undefined no_change) eq_refl)).
Defined.

(** ** Validators of the routes and of the schemas *)

Lemma check_review_validate body i user :
  check_review body = [] ->
  reviewSchema.validate
    (ReviewData.mk (ReviewBody.rating (sanitize_review body))
       (ReviewBody.comment (sanitize_review body)) i user) = [].
Proof.
  unfold check_review. intros H. apply app_eq_nil in H as [Hr Hc].
  apply when_nil, negb_false_iff in Hr. apply when_nil, negb_false_iff in Hc.
  unfold reviewSchema.validate. cbn.
  destruct (ReviewBody.rating body) as [|z|]; simpl in Hr; try discriminate.
  rewrite (proj2 (check_rating_ok z))
    by (apply andb_prop in Hr as [H1 H2]; unfold rating_ok; lia).
  destruct (ReviewBody.comment body) as [s|]; simpl in *.
  - rewrite trim_idem. unfold reviewSchema.check_comment.
    unfold isLength in Hc. now rewrite Hc.
  - discriminate.
Qed.

Lemma validate_fields year d :
  bookSchema.validate year d = [] ->
  (forall s, BookData.title d = Some s -> str_length (trim s) <= 200)
  /\ (forall s, BookData.author d = Some s -> str_length (trim s) <= 100)
  /\ (forall s, BookData.genre d = Some s -> str_length (trim s) <= 50)
  /\ (forall s, BookData.description d = Some s -> str_length (trim s) <= 2000)
  /\ (forall x, BookData.averageRating d = Value x -> (0 <= x)%Q /\ (x <= 5)%Q)
  /\ (forall x, BookData.totalReviews d = Value x -> (0 <= x)%Q).
Proof.
  unfold bookSchema.validate. intros H.
  apply app_eq_nil in H as [Ht H]. apply app_eq_nil in H as [Ha H].
  apply app_eq_nil in H as [Hg H]. apply app_eq_nil in H as [Hd H].
  apply app_eq_nil in H as [_ H]. apply app_eq_nil in H as [_ H].
  apply app_eq_nil in H as [_ H]. apply app_eq_nil in H as [Hr H].
  apply app_eq_nil in H as [_ H]. apply app_eq_nil in H as [Hn _].
  assert (forall p m v s, bookSchema.check_string p m v = [] -> v = Some s ->
                          str_length (trim s) <= m) as K.
  { intros p m v s Hc ->. unfold bookSchema.check_string in Hc.
    destruct (notEmpty (trim s)); [|discriminate]. simpl in Hc.
    destruct (Z.leb_spec (str_length (trim s)) m); [assumption|discriminate]. }
  split; [eauto|]. split; [eauto|]. split; [eauto|]. split; [eauto|]. split.
  - intros x Hx. rewrite Hx in Hr. now apply check_averageRating_ok in Hr.
  - intros x Hx. rewrite Hx in Hn. now apply check_totalReviews_ok in Hn.
Qed.

(** X11: a body that passes the validators of [POST /books] but breaks a limit
    only the schema knows (a title, author, genre or description too long, an
    [averageRating] outside 0 to 5, a negative [totalReviews]) is answered
    with 500 and the generic message, and nothing is stored. *)
Theorem post_books_schema_violation currentYear (db : DB) (user : ObjectId)
  (body : BookData.t) :
  check_book currentYear body = [] ->
  200 < str_length (trim (text_of (BookData.title body)))
  \/ 100 < str_length (trim (text_of (BookData.author body)))
  \/ 50 < str_length (trim (text_of (BookData.genre body)))
  \/ 2000 < str_length (trim (text_of (BookData.description body)))
  \/ (exists x, BookData.averageRating body = Value x
                /\ ((x < 0)%Q \/ (5 < x)%Q))
  \/ (exists x, BookData.totalReviews body = Value x /\ (x < 0)%Q) ->
  post_books currentYear user body db
  = (mkResponse 500 (J_error "Server error while adding book"), db).
Proof.
  intros Hc Hbad. unfold post_books, try_catch. rewrite Hc. simpl.
  unfold bind, bookSchema.save_new.
  destruct (bookSchema.validate _ _) eqn:Ev; [exfalso|reflexivity].
  apply validate_fields in Ev as (Ht & Ha & Hg & Hd & Hr & Hn).
  cbn in Ht, Ha, Hg, Hd, Hr, Hn.
  assert (forall o m, 0 <= m ->
             (forall s, option_map trim o = Some s -> str_length (trim s) <= m) ->
             m < str_length (trim (text_of o)) -> False) as K.
  { intros [s|] m Hm H Hlt.
    - specialize (H _ eq_refl). rewrite trim_idem in H. simpl in Hlt. lia.
    - vm_compute in Hlt. destruct m; try discriminate. lia. }
  destruct Hbad as [H|[H|[H|[H|[(x & Hx & H)|(x & Hx & H)]]]]].
  - exact (K _ 200 ltac:(lia) Ht H).
  - exact (K _ 100 ltac:(lia) Ha H).
  - exact (K _ 50 ltac:(lia) Hg H).
  - exact (K _ 2000 ltac:(lia) Hd H).
  - destruct (Hr _ Hx) as [H0 H5]. destruct H as [H|H].
    + exact (Qlt_not_le _ _ H H0).
    + exact (Qlt_not_le _ _ H H5).
  - exact (Qlt_not_le _ _ H (Hn _ Hx)).
Qed.

Lemma post_books_schema_violation_witness :
  post_books this_year carol long_book empty_db
  = (mkResponse 500 (J_error "Server error while adding book"), empty_db).
Proof.
  apply post_books_schema_violation; [reflexivity|].
  left. vm_compute. reflexivity.
Defined.

(** ** Writing, then reading back *)

(** X12: in a store the server reached, the book [POST /books] created is the
    book [GET /books/:id] shows under its identifier, with no review. *)
Theorem post_books_then_detail regex_i currentYear (db : DB) (user : ObjectId)
  (body : BookData.t) (b : Book.doc) :
  reachable regex_i currentYear db ->
  created_book (fst (post_books currentYear user body db)) = Some b ->
  fst (get_book regex_i (Some (Book._id b)) Undefined Undefined
         (snd (post_books currentYear user body db)))
  = mkResponse 200 (J_detail b [] (mkPagination 1 0 0 false false)).
Proof.
  intros Hreach. apply reachable_fresh in Hreach as (Hb & _ & Hrb & _ & _).
  unfold post_books, try_catch.
  destruct (check_book currentYear body); [|discriminate]. simpl.
  unfold bind, bookSchema.save_new.
  destruct (bookSchema.validate _ _); [|discriminate].
  destruct (bookSchema.id_taken _ db) eqn:Eid; [discriminate|].
  destruct (bookSchema.isbn_taken _ db); [discriminate|].
  cbn [fst snd ret created_book json]. intros [= <-].
  set (b := bookSchema.document _ _ _) in *. clearbody b.
  unfold get_book, try_catch, bind, cast_id, query, ret.
  rewrite findById_book. cbn [books].
  rewrite (find_fresh (Book._id b) (books db) b (id_taken_false _ _ Eid) eq_refl).
  assert (find regex_i ReviewModel (F_ref "book" (Book._id b))
            (mkDB (books db ++ [b]) (reviews db)
               (S (Nat.max (clock db) (Book._id b)))) = []) as Hnone.
  { unfold find. cbn [collection ReviewModel reviews].
    induction Hrb as [|r l Hr _ IH]; [reflexivity|]. cbn.
    destruct (Nat.eqb_spec (Review.book r) (Book._id b)) as [E|]; [|exact IH].
    exfalso. apply (id_taken_ids _ _ Eid). now rewrite <- E. }
  unfold find_page, countDocuments.
  change ((page_of Undefined - 1) * limit_of Undefined <? 0) with false.
  cbv beta iota. rewrite Hnone. reflexivity.
Qed.

Lemma post_books_then_detail_witness :
  exists b,
    fst (get_book contains_ci (Some 3%nat) Undefined Undefined
           (snd (post_books this_year carol dune library)))
    = mkResponse 200 (J_detail b [] (mkPagination 1 0 0 false false)).
Proof.
  eexists.
  exact (post_books_then_detail contains_ci this_year library carol dune _
           reachable_library eq_refl).
Defined.

(** X13: on a store whose reviews have ratings from 1 to 5, a valid review of
    a stored book by a user who has none on it yet is answered with 201: the
    store gains that one review, with the rating given, the comment trimmed,
    the book and the acting user, and the book's aggregates are recomputed
    from its reviews. *)
Theorem post_book_reviews_accepts regex_i (db : DB) (user i : ObjectId)
  (body : ReviewBody.t) (b : Book.doc) :
  ratings_in_range db ->
  check_review body = [] ->
  findById regex_i BookModel i db = Some b ->
  reviewSchema.pair_taken i user db = false ->
  exists review db' b',
    post_book_reviews regex_i user (Some i) body db
    = (mkResponse 201 (J_review "Review submitted successfully" review), db')
    /\ reviews db' = reviews db ++ [review]
    /\ ReviewBody.rating body = Int (Review.rating review)
    /\ Review.comment review = trim (text_of (ReviewBody.comment body))
    /\ Review.book review = i /\ Review.user review = user
    /\ findById regex_i BookModel i db' = Some b'
    /\ consistent db' b'.
Proof.
  intros Hr Hc Hb Hp.
  pose proof (check_review_validate body i user Hc) as Hv.
  unfold sanitize_review in Hv. cbn [ReviewBody.rating ReviewBody.comment] in Hv.
  assert (exists z, ReviewBody.rating body = Int z) as [z Hz].
  { unfold check_review in Hc. apply app_eq_nil in Hc as [Hc _].
    apply when_nil, negb_false_iff in Hc.
    destruct (ReviewBody.rating body); try discriminate. eauto. }
  unfold post_book_reviews, try_catch. rewrite Hc. simpl.
  unfold bind, cast_id, query, ret. rewrite Hb, findOne_pair.
  rewrite (proj2 (find_none_existsb (by_pair i user) (reviews db)) Hp).
  unfold reviewSchema.save_new. rewrite Hv.
  unfold bind, query, ret, reviewSchema.insert.
  cbn [Review.book Review.user reviewSchema.document ReviewData.book ReviewData.user].
  rewrite Hp.
  set (r := reviewSchema.document _ _ _).
  set (db1 := mkDB _ _ _).
  destruct (post_save_ok regex_i r db1) as (db' & Hs & Hrev).
  { subst db1. unfold ratings_in_range. cbn. apply Forall_app. split; [exact Hr|].
    constructor; [|constructor]. eapply validate_review_rating, Hv. }
  rewrite Hs.
  destruct (post_save_consistent regex_i r db1 db' b Hs Hb) as (b' & Hb' & Hcons).
  exists r, db', b'. split; [reflexivity|]. split; [exact Hrev|].
  split. { subst r. cbn. now rewrite Hz. }
  split. { subst r. cbn. destruct (ReviewBody.comment body); cbn.
           - apply trim_idem.
           - reflexivity. }
  auto.
Qed.

Lemma post_book_reviews_accepts_witness :
  exists review db' b',
    post_book_reviews contains_ci bob (Some 0%nat) fine_read store_one
    = (mkResponse 201 (J_review "Review submitted successfully" review), db')
    /\ reviews db' = reviews store_one ++ [review]
    /\ ReviewBody.rating fine_read = Int (Review.rating review)
    /\ Review.comment review = "a fine long read"
    /\ Review.book review = 0%nat /\ Review.user review = bob
    /\ findById contains_ci BookModel 0%nat db' = Some b'
    /\ consistent db' b'.
Proof.
  eapply (post_book_reviews_accepts contains_ci store_one bob 0%nat fine_read).
  - apply (serve_range contains_ci this_year
             (SubmitReview alice (Some 0%nat)
                (ReviewBody.mk (Int 4) (Some "a fine long read"))) store_dune).
    apply (serve_range contains_ci this_year (AddBook carol dune) empty_db).
    constructor.
  - reflexivity.
  - reflexivity.
  - reflexivity.
Defined.

(** ** Deleting and updating touch one review *)

Lemma find_remove_other i j l :
  j <> i ->
  List.find (is_review j) (reviewSchema.remove_id i l) = List.find (is_review j) l.
Proof.
  intros Hne. induction l as [|x l IH]; simpl; auto.
  destruct (Nat.eqb_spec (Review._id x) i) as [E|E].
  - unfold is_review at 2. destruct (Nat.eqb_spec (Review._id x) j); [lia|reflexivity].
  - simpl. now rewrite IH.
Qed.

Lemma find_update_fields_other i j rt cm l :
  j <> i ->
  List.find (is_review j) (reviewSchema.update_fields i rt cm l)
  = List.find (is_review j) l.
Proof.
  intros Hne. induction l as [|x l IH]; simpl; auto.
  destruct (Nat.eqb_spec (Review._id x) i) as [E|E]; simpl.
  - unfold is_review. simpl.
    destruct (Nat.eqb_spec (Review._id x) j); [lia|reflexivity].
  - now rewrite IH.
Qed.

Lemma find_absent i l :
  ~ In i (map Review._id l) -> List.find (is_review i) l = None.
Proof.
  intros H. apply find_none_existsb. apply not_true_is_false. intros E.
  apply existsb_exists in E as (r & Hr & E). apply Nat.eqb_eq in E.
  apply H. rewrite <- E. now apply in_map.
Qed.

(** X14: in a store the server reached, the owner's deletion removes that
    review and nothing else: the review is gone, every other review and every
    book is as before, and the user has no review on the book any more. *)
Theorem delete_review_removes regex_i currentYear (db : DB) (i : ObjectId)
  (review : Review.doc) :
  reachable regex_i currentYear db ->
  findById regex_i ReviewModel i db = Some review ->
  let db' := snd (delete_review regex_i (Review.user review) (Some i) db) in
  findById regex_i ReviewModel i db' = None
  /\ (forall j, j <> i ->
      findById regex_i ReviewModel j db' = findById regex_i ReviewModel j db)
  /\ Permutation (reviews db) (review :: reviews db')
  /\ books db' = books db
  /\ reviewSchema.pair_taken (Review.book review) (Review.user review) db' = false.
Proof.
  intros Hreach Hf db'.
  pose proof (reachable_fresh _ _ _ Hreach) as (_ & _ & _ & _ & Nr).
  pose proof (reachable_unique _ _ _ Hreach) as Np. unfold unique_pairs in Np.
  subst db'. rewrite (delete_review_ok regex_i i db review Hf). cbn [snd].
  rewrite findById_review in Hf.
  assert (Review._id review = i) as Hi
    by (apply find_some in Hf as [_ Hf]; now apply Nat.eqb_eq).
  destruct (remove_id_split _ _ _ Hf) as (l1 & l2 & El & Er).
  rewrite !findById_review. cbn [reviews books]. rewrite Er.
  rewrite El in Nr, Np. rewrite map_app in Nr, Np. cbn in Nr, Np.
  split. { apply find_absent. rewrite map_app, <- Hi.
           exact (NoDup_remove_2 _ _ _ Nr). }
  split. { intros j Hj. rewrite <- Er. now apply find_remove_other. }
  split. { rewrite El. symmetry. apply Permutation_middle. }
  split; [reflexivity|].
  apply not_true_is_false. intros E. apply pair_taken_In in E. cbn in E.
  rewrite map_app in E. exact (NoDup_remove_2 _ _ _ Np E).
Qed.

Lemma delete_review_removes_witness :
  findById contains_ci ReviewModel 1%nat
    (snd (delete_review contains_ci alice (Some 1%nat) store_two)) = None.
Proof.
  exact (proj1 (delete_review_removes contains_ci this_year store_two 1%nat
                  alice_review reachable_store_two eq_refl)).
Defined.

Lemma aggregates_written_frame k db db' :
  aggregates_written k db db' ->
  reviews db' = reviews db /\ clock db' = clock db
  /\ forall j, j <> k ->
     List.find (has_id j) (books db') = List.find (has_id j) (books db).
Proof.
  unfold aggregates_written. intros ->. cbn. repeat split.
  intros j Hj. now apply find_update_ratings_other.
Qed.

(** X15: an update of review [i], whatever its answer, leaves every other
    review as it was, and every book but the one the review is of. *)
Theorem put_review_frame regex_i (db : DB) (user i : ObjectId)
  (body : ReviewBody.t) (review : Review.doc) :
  findById regex_i ReviewModel i db = Some review ->
  let db' := snd (put_review regex_i user (Some i) body db) in
  (forall j, j <> i ->
   findById regex_i ReviewModel j db' = findById regex_i ReviewModel j db)
  /\ (forall k, k <> Review.book review ->
      findById regex_i BookModel k db' = findById regex_i BookModel k db)
  /\ map Review._id (reviews db') = map Review._id (reviews db)
  /\ clock db' = clock db.
Proof.
  intros Hf db'. rewrite findById_review in Hf.
  destruct (put_review_step_at regex_i user i body db)
    as [E|(review0 & rt & cm & Hf0 & _ & E)]; fold db' in E; rewrite E.
  - auto.
  - rewrite Hf in Hf0. injection Hf0 as <-.
    set (db1 := mkDB _ _ _).
    assert (reviews (outcome_db (reviewSchema.post_save regex_i
                                   (reviewSchema.set_fields rt cm review) db1))
            = reviews db1
            /\ clock (outcome_db (reviewSchema.post_save regex_i
                                    (reviewSchema.set_fields rt cm review) db1))
               = clock db1
            /\ forall k, k <> Review.book review ->
               List.find (has_id k)
                 (books (outcome_db (reviewSchema.post_save regex_i
                                       (reviewSchema.set_fields rt cm review) db1)))
               = List.find (has_id k) (books db1)) as (Hr & Hc & Hb).
    { destruct (post_save_outcome regex_i (reviewSchema.set_fields rt cm review) db1)
        as [->|Hw]; [auto|].
      now apply aggregates_written_frame in Hw. }
    split. { intros j Hj. rewrite !findById_review, Hr. subst db1. cbn.
             now apply find_update_fields_other. }
    split. { intros k Hk. rewrite !findById_book. now rewrite Hb. }
    split. { rewrite Hr. subst db1. cbn. apply update_fields_ids. }
    exact Hc.
Qed.

Lemma put_review_frame_witness :
  findById contains_ci ReviewModel 2%nat
    (snd (put_review contains_ci alice (Some 1%nat) second_read store_two))
  = findById contains_ci ReviewModel 2%nat store_two.
Proof.
  refine (proj1 (put_review_frame contains_ci store_two alice 1%nat second_read
                   alice_review eq_refl) 2%nat _).
  discriminate.
Defined.

(** ** The aggregator, run again *)

Lemma update_ratings_twice k a t l :
  bookSchema.update_ratings k a t (bookSchema.update_ratings k a t l)
  = bookSchema.update_ratings k a t l.
Proof.
  induction l as [|b l IH]; simpl; auto.
  destruct (Nat.eqb (Book._id b) k) eqn:E; simpl.
  - now rewrite E.
  - now rewrite E, IH.
Qed.

(** X16: [updateAverageRating] that went through changes the book it ran on
    and nothing else, and a second run, on any copy of that book, goes
    through and leaves the store as the first run left it. *)
Theorem updateAverageRating_stable regex_i (db db' : DB) (this again : Book.doc) :
  bookSchema.updateAverageRating this db = Next tt db' ->
  Book._id again = Book._id this ->
  bookSchema.updateAverageRating again db' = Next tt db'
  /\ reviews db' = reviews db
  /\ clock db' = clock db
  /\ forall k, k <> Book._id this ->
     findById regex_i BookModel k db' = findById regex_i BookModel k db.
Proof.
  rewrite !updateAverageRating_unfold. cbv zeta.
  unfold bookSchema.save_ratings.
  cbn [Book.averageRating Book.totalReviews bookSchema.set_ratings Book._id].
  destruct (_ ++ _) eqn:Ev; [|discriminate].
  intros [= <-] Hid. rewrite Hid.
  change (bookSchema.ratings_of (Book._id this)
            (mkDB (bookSchema.update_ratings (Book._id this)
                     (fst (recomputed (bookSchema.ratings_of (Book._id this) db)))
                     (snd (recomputed (bookSchema.ratings_of (Book._id this) db)))
                     (books db))
               (reviews db) (clock db)))
    with (bookSchema.ratings_of (Book._id this) db).
  rewrite Ev. cbn [books reviews clock]. rewrite update_ratings_twice.
  repeat split. intros k Hk. rewrite !findById_book. cbn [books].
  now apply find_update_ratings_other.
Qed.

Lemma updateAverageRating_stable_witness :
  bookSchema.updateAverageRating dune_two store_two = Next tt store_two.
Proof.
  refine (proj1 (updateAverageRating_stable contains_ci store_two store_two
                   dune_two dune_two _ eq_refl)).
  vm_compute. reflexivity.
Defined.

Lemma sum_same z l :
  Forall (fun x => x = z) l -> bookSchema.sum l = z * Z.of_nat (List.length l).
Proof.
  induction 1 as [|x l -> _ IH]; unfold bookSchema.sum in *; simpl List.length;
    simpl fold_right; [lia|]. rewrite IH. lia.
Qed.

Lemma Math_round_int m : Math_round (inject_Z m) = m.
Proof.
  unfold Math_round, Qfloor, Qplus, inject_Z. cbn [Qnum Qden].
  change (Z.pos (1 * 2)) with 2.
  rewrite Z.mul_1_l. replace (m * 2 + 1) with (1 + m * 2) by lia.
  rewrite Z.div_add by lia. reflexivity.
Qed.

Lemma ten_tenths z : (inject_Z 10 * inject_Z z / 10 == inject_Z z)%Q.
Proof. field. Qed.

(** X17: when the reviews of a book all carry the same rating, the average
    [updateAverageRating] stores is that rating. *)
Theorem same_ratings_average regex_i (db db' : DB) (this : Book.doc) (z : Z) :
  findById regex_i BookModel (Book._id this) db = Some this ->
  ratings_in (Book._id this) (reviews db) <> [] ->
  Forall (fun x => x = z) (ratings_in (Book._id this) (reviews db)) ->
  bookSchema.updateAverageRating this db = Next tt db' ->
  exists b average,
    findById regex_i BookModel (Book._id this) db' = Some b
    /\ Book.averageRating b = Some average
    /\ (average == inject_Z z)%Q.
Proof.
  intros Hf Hne Hall. rewrite updateAverageRating_unfold. cbv zeta.
  rewrite ratings_of_in.
  unfold bookSchema.save_ratings.
  cbn [Book.averageRating Book.totalReviews bookSchema.set_ratings Book._id].
  destruct (_ ++ _); [|discriminate]. intros [= <-].
  set (l := ratings_in (Book._id this) (reviews db)) in *.
  assert (negb (is_nil l) = true) as Hl
    by (destruct l; [congruence|reflexivity]).
  do 2 eexists. split; [|split].
  - rewrite findById_book in *. cbn [books]. rewrite find_update_ratings, Hf.
    reflexivity.
  - cbn [Book.averageRating bookSchema.set_ratings]. unfold recomputed.
    rewrite Hl. reflexivity.
  - assert (bookSchema.avg l * 10 == inject_Z (10 * z))%Q as E.
    { rewrite avg_scaled by assumption. rewrite (sum_same z l Hall).
      replace (10 * (z * Z.of_nat (List.length l)))
        with ((10 * z) * Z.of_nat (List.length l)) by lia.
      rewrite inject_Z_mult. field.
      intros H0. pose proof (inject_Z_pos _ (length_pos l Hne)) as Hp.
      rewrite H0 in Hp. discriminate. }
    unfold Math_round. rewrite E. fold (Math_round (inject_Z (10 * z))).
    rewrite Math_round_int, inject_Z_mult. apply ten_tenths.
Qed.

Lemma same_ratings_average_witness :
  exists b average,
    findById contains_ci BookModel 0%nat store_fixed = Some b
    /\ Book.averageRating b = Some average
    /\ (average == inject_Z 4)%Q.
Proof.
  refine (same_ratings_average contains_ci store_stale store_fixed dune_two 4
            _ _ _ _).
  - vm_compute. reflexivity.
  - vm_compute. discriminate.
  - vm_compute. constructor; [reflexivity|constructor].
  - vm_compute. reflexivity.
Defined.

Lemma range_store_stale : ratings_in_range store_stale.
Proof.
  exact (serve_range contains_ci this_year (DeleteReview bob (Some 2%nat))
           store_two range_store_two).
Qed.

(** X18: on a store whose reviews have ratings from 1 to 5, the owner's valid
    update of a review of a stored book leaves that book's aggregates in step
    with its reviews, whatever they were before. *)
Theorem put_review_resynchronises regex_i (db : DB) (i : ObjectId)
  (body : ReviewBody.t) (review : Review.doc) (b : Book.doc) :
  ratings_in_range db ->
  findById regex_i ReviewModel i db = Some review ->
  findById regex_i BookModel (Review.book review) db = Some b ->
  check_review_update body = [] ->
  let db' := snd (put_review regex_i (Review.user review) (Some i) body db) in
  exists b',
    findById regex_i BookModel (Review.book review) db' = Some b'
    /\ consistent db' b'.
Proof.
  intros Hb Hf Hbook Hc.
  apply (put_review_consistent regex_i (Review.user review) i body db review b);
    auto.
  destruct (put_review_ok regex_i i body db review Hb Hc Hf) as (db' & -> & _).
  reflexivity.
Qed.

Lemma put_review_resynchronises_witness :
  ~ consistent store_stale dune_two
  /\ exists b',
       findById contains_ci BookModel 0%nat
         (snd (put_review contains_ci alice (Some 1%nat) no_change store_stale))
       = Some b'
       /\ consistent
            (snd (put_review contains_ci alice (Some 1%nat) no_change store_stale))
            b'.
Proof.
  split.
  - intros [Ht _]. vm_compute in Ht. discriminate.
  - refine (put_review_resynchronises contains_ci store_stale 1%nat no_change
              alice_review dune_two range_store_stale _ _ _);
      vm_compute; reflexivity.
Defined.

(** ** Bounds of the stored numbers *)

(** X19: in every store the server reaches, each review has a rating from 1
    to 5; every request, and [updateAverageRating] run on any book, takes a
    store with such ratings to a store with such ratings. *)
Theorem ratings_stay_in_range regex_i currentYear (db : DB) :
  (reachable regex_i currentYear db -> ratings_in_range db)
  /\ (ratings_in_range db ->
      (forall rq, ratings_in_range (snd (serve regex_i currentYear rq db)))
      /\ (forall this,
            ratings_in_range
              (outcome_db (bookSchema.updateAverageRating this db)))).
Proof.
  split; [apply reachable_range|].
  intros H. split.
  - intros rq. now apply serve_range.
  - intros this. eapply ratings_written_range; [|exact H].
    apply updateAverageRating_effect.
Qed.

Lemma ratings_stay_in_range_witness :
  ratings_in_range store_two
  /\ ratings_in_range
       (snd (serve contains_ci this_year (DeleteReview bob (Some 2%nat)) store_two)).
Proof.
  pose proof (ratings_stay_in_range contains_ci this_year store_two) as [H1 H2].
  pose proof (H1 reachable_store_two) as Hr.
  split; [exact Hr|]. exact (proj1 (H2 Hr) _).
Defined.

Lemma numeric_store_two : reachable_by contains_ci this_year numeric store_two.
Proof.
  change (reachable_by contains_ci this_year numeric
            (snd (serve contains_ci this_year
                    (SubmitReview bob (Some 0%nat)
                       (ReviewBody.mk (Int 2) (Some "not my cup of tea")))
                    store_one))).
  apply reach_by_serve; [exact I|].
  change (reachable_by contains_ci this_year numeric
            (snd (serve contains_ci this_year
                    (SubmitReview alice (Some 0%nat)
                       (ReviewBody.mk (Int 4) (Some "a fine long read")))
                    store_dune))).
  apply reach_by_serve; [exact I|].
  change (reachable_by contains_ci this_year numeric
            (snd (serve contains_ci this_year (AddBook carol dune) empty_db))).
  apply reach_by_serve; [split; discriminate|]. constructor.
Qed.

(** X20: as long as no new book sends [null] for [averageRating] or
    [totalReviews], each stored book has an [averageRating] from 0 to 5 and
    a [totalReviews] of at least 0, and each review a rating from 1 to 5;
    every such request, and [updateAverageRating] run on any book, takes a
    store within these bounds to a store within them. *)
Theorem bounds_without_null regex_i currentYear (db : DB) :
  (reachable_by regex_i currentYear numeric db -> bounds db)
  /\ (bounds db ->
      (forall rq, numeric rq -> bounds (snd (serve regex_i currentYear rq db)))
      /\ (forall this, bounds (outcome_db (bookSchema.updateAverageRating this db)))).
Proof.
  split; [apply reachable_by_bounds|].
  intros H. split.
  - intros rq Hrq. now apply serve_bounds.
  - intros this. eapply ratings_written_bounds; [|exact H].
    apply updateAverageRating_effect.
Qed.

Lemma bounds_without_null_witness :
  bounds store_two
  /\ bounds (snd (serve contains_ci this_year (AddBook carol rated_book) store_two)).
Proof.
  pose proof (bounds_without_null contains_ci this_year store_two) as [H1 H2].
  pose proof (H1 numeric_store_two) as Hb.
  split; [exact Hb|]. apply (proj1 (H2 Hb)). split; discriminate.
Defined.

(** ** Filters the store refuses, and pages beyond a double *)

(** X21: a listing or a search whose filter holds a pattern the store's
    engine refuses is answered with 500 and the generic message, and nothing
    is written. *)
Theorem refused_filter_is_500 regex_i (db : DB) (page limit : IntField)
  (author genre q : option string) :
  check_paging page limit = [] ->
  (well_formed regex_i
     (books_filter (option_map trim author) (option_map trim genre)) = false ->
   get_books regex_i page limit author genre db
   = (mkResponse 500 (J_error "Server error while fetching books"), db))
  /\ (notEmpty (trim (text_of q)) = true ->
      well_formed regex_i (searchFilter (trim (text_of q))) = false ->
      get_search regex_i q page limit db
      = (mkResponse 500 (J_error "Server error while searching books"), db)).
Proof.
  intros Hp. split.
  - now apply get_books_refused.
  - intros Hq Hf. unfold get_search, try_catch, bind. rewrite Hp, Hq.
    cbn [is_nil negb when app]. rewrite text_of_trim.
    now rewrite search_page_refused.
Qed.

Lemma refused_filter_is_500_witness :
  get_books contains_ci Undefined Undefined (Some "(") None store_two
  = (mkResponse 500 (J_error "Server error while fetching books"), store_two).
Proof.
  exact (proj1 (refused_filter_is_500 contains_ci store_two Undefined Undefined
                  (Some "(") None None eq_refl) eq_refl).
Defined.

(** X22: a page number too long for a double is read as the double nearest
    to it: asked for page [2 ^ 53 + 1] of 25 books, [GET /books] answers
    with no book and names page [2 ^ 53]. *)
Theorem page_beyond_double :
  get_books contains_ci (Int (2 ^ 53 + 1)) Undefined None None (shelf 25)
  = (mkResponse 200
       (J_books [] (mkPagination (2 ^ 53) 3 25 false true)), shelf 25).
Proof. vm_compute. reflexivity. Qed.

(** ** A book under a chosen identifier *)

(** X23: a valid body that names an [_id] gets a book under that identifier
    when no stored book has it, with the creation time the body names if it
    names one, and is answered with 500, nothing stored, when a stored book
    has it. *)
Theorem post_books_chosen_id currentYear (db : DB) (user : ObjectId)
  (body : BookData.t) (i : ObjectId) :
  check_book currentYear body = [] ->
  bookSchema.validate currentYear (bookData (sanitize_book body) user) = [] ->
  BookData._id body = Value i ->
  (bookSchema.id_taken i db = true ->
   post_books currentYear user body db
   = (mkResponse 500 (J_error "Server error while adding book"), db))
  /\ (bookSchema.id_taken i db = false ->
      bookSchema.isbn_taken (option_map trim (BookData.isbn body)) db = false ->
      exists b,
        post_books currentYear user body db
        = (mkResponse 201 (J_book "Book added successfully" b),
           mkDB (books db ++ [b]) (reviews db) (S (Nat.max (clock db) i)))
        /\ Book._id b = i /\ Book.addedBy b = user
        /\ (forall t, BookData.createdAt body = Value t -> Book.createdAt b = t)
        /\ (BookData.createdAt body = Absent \/ BookData.createdAt body = Null ->
            Book.createdAt b = clock db)).
Proof.
  intros Hc Hv Hi. unfold post_books, try_catch. rewrite Hc. cbn [is_nil negb].
  unfold bind, bookSchema.save_new. rewrite Hv.
  cbn [Book._id Book.isbn bookSchema.document BookData._id BookData.isbn
       bookData sanitize_book].
  rewrite Hi. split.
  - intros Ht. now rewrite Ht.
  - intros Ht Hs. rewrite Ht, Hs.
    exists (bookSchema.document (bookData (sanitize_book body) user)
              (clock db) (clock db)).
    cbn [Book._id Book.addedBy Book.createdAt bookSchema.document
         BookData._id BookData.addedBy BookData.createdAt bookData sanitize_book].
    rewrite Hi.
    split; [reflexivity|]. split; [reflexivity|]. split; [reflexivity|]. split.
    + intros t ->. reflexivity.
    + intros [-> | ->]; reflexivity.
Qed.

Lemma post_books_chosen_id_witness :
  post_books this_year carol dune_at_zero store_dune
  = (mkResponse 500 (J_error "Server error while adding book"), store_dune).
Proof.
  exact (proj1 (post_books_chosen_id this_year store_dune carol dune_at_zero 0%nat
                  eq_refl eq_refl eq_refl) eq_refl).
Defined.
